(** * brdoc: CPF and CNPJ check digits, validation, formatting, generation

    A shallow embedding of the Go package [brdoc] (the current source, with
    the byte-level [digits] scanners and [GenerateLegacy]) and of the
    check-digit verification of its first release ([validator.go], module
    [Legacy] below), followed by the properties stated about them.

    Conventions of the embedding:
    - a Go [string] is its sequence of bytes, [list ascii];
    - a Go [int] is a 64-bit two's complement integer: a [Z] that every
      arithmetic operation brings back into range with [wrap];
    - a Go slice of [int] is a header (array, length, capacity) over an
      array that lives in a store shared by every header that points to it;
    - a run-time panic is the outcome [None] of the store monad [M];
    - the package-level random source is the stream of its raw outputs. *)

From Stdlib Require Import ZArith Ascii String Lia DecimalString.
From stdpp Require Import base list strings gmap.

Local Open Scope Z_scope.

(** ** The Go fragment the package is written in *)

Module Go.

(** *** Bytes, runes and strings *)

(** The numeric value of a byte; also the conversion [rune(b)]. *)
Definition code (c : ascii) : Z := Z.of_N (N_of_ascii c).

(** The conversion [byte(x)] of an integer, which keeps the low 8 bits. *)
Definition byte (x : Z) : ascii := ascii_of_N (Z.to_N (x mod 256)).

(** A string literal as the bytes of its UTF-8 encoding. *)
Definition str (s : string) : list ascii := list_ascii_of_string s.

(** [len(s)] as an [int]. *)
Definition len {A} (l : list A) : Z := Z.of_nat (length l).

(** *** 64-bit integers *)

Definition wrap (z : Z) : Z := (z + 2 ^ 63) mod 2 ^ 64 - 2 ^ 63.

Definition add (a b : Z) : Z := wrap (a + b).
Definition sub (a b : Z) : Z := wrap (a - b).
Definition mul (a b : Z) : Z := wrap (a * b).

(** [a % b] truncates towards zero, like [Z.rem]; every divisor in the
    package is a non-zero constant. *)
Definition rem (a b : Z) : Z := Z.rem a b.

(** [strconv.Itoa]: the decimal rendering, with a minus sign below zero. *)
Definition Itoa (x : Z) : list ascii :=
  str (NilZero.string_of_int (Z.to_int x)).

(** *** Errors and results *)

(** The errors the package builds with [fmt.Errorf], by message. *)
Inductive error : Type :=
| InvalidCharacter (ch : ascii) (position : Z)
    (* "invalid character: %c at position %d" *)
| CPFNotValid
    (* "CPF is not valid" *)
| CPFLength (got : Z)
    (* "CPF must have %d digits, got: %d" *)
| CNPJLength (got : Z).
    (* "CNPJ must have 14 characters, got: %d" *)

(** A pair [(T, error)] of which exactly one component is meaningful. *)
Inductive result (A : Type) : Type :=
| Ok (a : A)
| Err (e : error).
Arguments Ok {A} a.
Arguments Err {A} e.

Definition is_err {A} (r : result A) : bool :=
  match r with Ok _ => false | Err _ => true end.

(** *** Strings *)

Global Instance ascii_inhabited : Inhabited ascii := populate zero.

(** [s[lo:hi]] on a string, for [lo <= hi <= len(s)]. *)
Definition substr (s : list ascii) (lo hi : nat) : list ascii :=
  take (hi - lo)%nat (drop lo s).

(** [copy(out[lo:hi], src)] on a byte array: copies
    [min(hi - lo, len(src))] bytes. *)
Definition copy (out : list ascii) (lo hi : nat) (src : list ascii)
  : list ascii :=
  let n := ((hi - lo) `min` length src)%nat in
  take lo out ++ take n src ++ drop (lo + n)%nat out.

(** [strings.ReplaceAll(s, string(old), "")] for a one-byte [old]. *)
Fixpoint removeAll (old : ascii) (s : list ascii) : list ascii :=
  match s with
  | [] => []
  | ch :: s' =>
      if Ascii.eqb ch old then removeAll old s' else ch :: removeAll old s'
  end.

(** [strings.Repeat(s, count)]. *)
Definition Repeat (s : list ascii) (count : nat) : list ascii :=
  concat (replicate count s).

(** [slices.Contains] on a slice of strings. *)
Definition Contains (l : list (list ascii)) (s : list ascii) : bool :=
  bool_decide (s ∈ l).

(** *** The store: arrays of [int], and the random source *)

(** A slice header. Every slice expression of the package starts at
    index 0, so a header needs no offset: it names its array and gives
    its length and capacity. *)
Record slice : Type := Slice { arr : nat; slen : nat; scap : nat }.

(** The nil slice. *)
Definition nilSlice : slice := Slice 0 0 0.

(** [heap] holds the arrays by address; [rng] is what the package's
    [*rand.Rand] will return next, before reduction to the asked range. *)
Record state : Type := State { heap : list (list Z); rng : nat -> nat }.

(** Computations over the store; [None] is a run-time panic. *)
Definition M (A : Type) : Type := state -> option (A * state).

Definition ret {A} (a : A) : M A := fun st => Some (a, st).

Definition bind {A B} (m : M A) (k : A -> M B) : M B :=
  fun st => match m st with Some (a, st') => k a st' | None => None end.

Definition panic {A} : M A := fun _ => None.

(** The array behind a header ([[]] for a header that has none). *)
Definition array_of (s : slice) (h : list (list Z)) : list Z :=
  default [] (h !! arr s).

(** The elements [s[0]], ..., [s[len(s)-1]] as the store has them. *)
Definition elems_in (s : slice) (h : list (list Z)) : list Z :=
  take (slen s) (array_of s h).

Definition elems (s : slice) : M (list Z) :=
  fun st => Some (elems_in s (heap st), st).

(** A fresh array with the given contents; returns its address. *)
Definition alloc (a : list Z) : M nat :=
  fun st => Some (length (heap st), State (heap st ++ [a]) (rng st)).

(** [make([]int, n, c)]. *)
Definition make (n c : nat) : M slice :=
  if (c <? n)%nat then panic
  else bind (alloc (replicate c 0)) (fun p => ret (Slice p n c)).

(** A composite literal [[]int{x1, ..., xn}]. *)
Definition literal (xs : list Z) : M slice :=
  bind (alloc xs) (fun p => ret (Slice p (length xs) (length xs))).

(** [s[:hi]]: legal up to the capacity, and on the same array. *)
Definition reslice (s : slice) (hi : nat) : M slice :=
  if (scap s <? hi)%nat then panic else ret (Slice (arr s) hi (scap s)).

(** [s[i]]. *)
Definition index (s : slice) (i : nat) : M Z :=
  fun st =>
    if (i <? slen s)%nat then
      match array_of s (heap st) !! i with
      | Some v => Some (v, st)
      | None => None
      end
    else None.

(** [s[i] = x]. *)
Definition assign (s : slice) (i : nat) (x : Z) : M unit :=
  fun st =>
    if (i <? slen s)%nat then
      Some (tt, State (<[arr s := <[i := x]> (array_of s (heap st))]> (heap st))
                      (rng st))
    else None.

(** The capacity the runtime picks when [append] must move a slice of
    capacity [c] to make room for one more element (the rounding up to
    an allocation size class is left out: it only adds room). *)
Definition growcap (c : nat) : nat :=
  if (c =? 0)%nat then 1%nat
  else if (c <? 256)%nat then (2 * c)%nat
  else (c + (c + 768) / 4)%nat.

(** [append(s, x)]: with room left, [x] is written into the array of [s]
    itself, at index [len(s)], where every other header on that array
    sees it; without room the elements move to a fresh array. *)
Definition append (s : slice) (x : Z) : M slice :=
  fun st =>
    if (slen s <? scap s)%nat then
      Some (Slice (arr s) (S (slen s)) (scap s),
            State (<[arr s := <[slen s := x]> (array_of s (heap st))]> (heap st))
                  (rng st))
    else
      let c := growcap (scap s) in
      let a := elems_in s (heap st) ++ [x] ++ replicate (c - S (slen s))%nat 0 in
      Some (Slice (length (heap st)) (S (slen s)) c,
            State (heap st ++ [a]) (rng st)).

(** [rng.Intn(n)]: the next output of the source, reduced to [[0, n)]. *)
Definition Intn (n : Z) : M Z :=
  fun st =>
    if n <=? 0 then None
    else Some (Z.of_nat (rng st 0%nat) mod n,
               State (heap st) (fun k => rng st (S k))).

End Go.

Notation "x <- m ;; k" := (Go.bind m (fun x => k))
  (at level 100, m at next level, right associativity).
Notation "m ;;; k" := (Go.bind m (fun _ => k))
  (at level 100, right associativity).

Import Go.

(** ** Package-level constants and variables *)

Definition CpfLength : Z := 11.
Definition CnpjLength : Z := 14.

Definition IsDigit0 : list ascii := str "Rio Grande do Sul".
Definition IsDigit1 : list ascii :=
  str "Federal District, Goiás, Mato Grosso do Sul, and Tocantins".
Definition IsDigit2 : list ascii :=
  str "Pará, Amazonas, Acre, Amapá, Rondônia, and Roraima".
Definition IsDigit3 : list ascii := str "Ceará, Maranhão, and Piauí".
Definition IsDigit4 : list ascii :=
  str "Pernambuco, Rio Grande do Norte, Paraíba, and Alagoas".
Definition IsDigit5 : list ascii := str "Bahia and Sergipe".
Definition IsDigit6 : list ascii := str "Minas Gerais".
Definition IsDigit7 : list ascii := str "Rio de Janeiro and Espírito Santo".
Definition IsDigit8 : list ascii := str "São Paulo".
Definition IsDigit9 : list ascii := str "Paraná and Santa Catarina".

(** The non-accepted CPFs (all digits equal), as [init] builds them:
    [strings.Repeat(strconv.Itoa(i), 11)] for [i] from 0 to 9. *)
Definition notAcceptedCPF : list (list ascii) :=
  (fun i : nat => Repeat (Itoa (Z.of_nat i)) 11) <$> seq 0 10.

(** Conversion map for alphanumeric CNPJ (ASCII - 48): [map[rune]int]. *)
Definition charToValue : gmap Z Z :=
  list_to_map
    [ (code "0", 0); (code "1", 1); (code "2", 2); (code "3", 3);
      (code "4", 4); (code "5", 5); (code "6", 6); (code "7", 7);
      (code "8", 8); (code "9", 9);
      (code "A", 17); (code "B", 18); (code "C", 19); (code "D", 20);
      (code "E", 21); (code "F", 22); (code "G", 23); (code "H", 24);
      (code "I", 25); (code "J", 26); (code "K", 27); (code "L", 28);
      (code "M", 29); (code "N", 30); (code "O", 31); (code "P", 32);
      (code "Q", 33); (code "R", 34); (code "S", 35); (code "T", 36);
      (code "U", 37); (code "V", 38); (code "W", 39); (code "X", 40);
      (code "Y", 41); (code "Z", 42) ].

(** ** CPF: the individual taxpayer identifier *)

Module CPF.

(** [type CPF struct { cpfNumber []int }]. A method with a pointer
    receiver that assigns to the field returns the receiver it leaves. *)
Record t : Type := Build { cpfNumber : slice }.

Definition NewCPF : t := Build nilSlice.

(** [isDigit] checks if a character is a numeric digit. *)
Definition isDigit (ch : ascii) : bool :=
  (code "0" <=? code ch) && (code ch <=? code "9").

(** The loop of [processRemainingDigits], over [value[i:]]. *)
Fixpoint processRemainingDigits_loop (todo result : list ascii)
  : list ascii :=
  match todo with
  | [] => result
  | ch :: todo' =>
      processRemainingDigits_loop todo'
        (if isDigit ch then result ++ [ch] else result)
  end.

(** The fallback when the buffer exceeds capacity. *)
Definition processRemainingDigits (value : list ascii) (startIdx : nat)
    (existingData : list ascii) : list ascii :=
  processRemainingDigits_loop (drop startIdx value) ([] ++ existingData).

(** The loop of [digits]: [todo] is [value[i:]], [buf] the 11-byte
    buffer and [n] the number of bytes written to it. *)
Fixpoint digits_loop (value todo : list ascii) (i : nat)
    (buf : list ascii) (n : nat) : list ascii :=
  match todo with
  | [] => take n buf
  | ch :: todo' =>
      if negb (isDigit ch) then digits_loop value todo' (S i) buf n
      else if (length buf <=? n)%nat then
        processRemainingDigits value i (take n buf)
      else digits_loop value todo' (S i) (<[n := ch]> buf) (S n)
  end.

(** Fast filter to keep only digits. *)
Definition digits (value : list ascii) : list ascii :=
  digits_loop value value 0 (replicate (Z.to_nat CpfLength) zero) 0.

(** The loop of [clean]. *)
Fixpoint clean_loop (c : t) (todo : list ascii) : M t :=
  match todo with
  | [] => ret c
  | ch :: todo' =>
      if (code "0" <=? code ch) && (code ch <=? code "9") then
        s <- append (cpfNumber c) (code (byte (code ch - code "0"))) ;;
        clean_loop (Build s) todo'
      else clean_loop c todo'
  end.

(** Always reset and parse fresh; keep the capacity across calls. *)
Definition clean (c : t) (value : list ascii) : M t :=
  s <- reslice (cpfNumber c) 0 ;;
  s <- (if Z.of_nat (scap s) <? CpfLength
        then make 0 (Z.to_nat CpfLength) else ret s) ;;
  clean_loop (Build s) value.

(** The [range] loop shared in shape by the two digit functions: index
    [i] from 0, element [v], weight [w - i]. *)
Fixpoint weighted_loop (w : Z) (value : list Z) (i sum : Z) : Z :=
  match value with
  | [] => sum
  | v :: value' =>
      weighted_loop w value' (add i 1) (add sum (mul v (sub w i)))
  end.

Definition clamp (sum : Z) : Z :=
  let rest := rem (mul sum 10) 11 in
  if (rest =? 10) || (rest =? 11) then 0 else rest.

Definition calculateFirstDigit (value : slice) : M Z :=
  xs <- elems value ;;
  ret (clamp (weighted_loop 10 xs 0 0)).

Definition calculateSecondDigit (value : slice) : M Z :=
  xs <- elems value ;;
  ret (clamp (weighted_loop 11 xs 0 0)).

(** [validate]: the slice [value[:9]] shares the array of [value], and
    [append] finds room in it whenever [cap(value) > 9]. *)
Definition validate (value : slice) : M bool :=
  if negb (Z.of_nat (slen value) =? CpfLength) then ret false
  else
    v9 <- reslice value 9 ;;
    dv1 <- calculateFirstDigit v9 ;;
    v10 <- append v9 dv1 ;;
    dv2 <- calculateSecondDigit v10 ;;
    a <- index value 9 ;;
    if negb (dv1 =? a) then ret false
    else b <- index value 10 ;; ret (dv2 =? b).

(** Reject CPFs with all equal digits. *)
Definition isAccepted (value : list ascii) : bool :=
  negb (Contains notAcceptedCPF (digits value)).

Definition length (value : slice) : bool :=
  Z.of_nat (slen value) =? CpfLength.

(** [Validate] validates a CPF number (with or without formatting). *)
Definition Validate (c : t) (value : list ascii) : M (bool * t) :=
  c <- clean c value ;;
  if negb (isAccepted value) then ret (false, c)
  else if negb (length (cpfNumber c)) then ret (false, c)
  else ok <- validate (cpfNumber c) ;; ret (ok, c).

(** [out[k] = byte('0' + value[i])]. *)
Definition put_digit (value : slice) (i k : nat) (out : list ascii)
  : M (list ascii) :=
  v <- index value i ;;
  ret (<[k := byte (add (code "0") v)]> out).

(** Build formatted CPF directly into a 14-byte buffer: XXX.XXX.XXX-XX. *)
Definition maskCPF (value : slice) : M (list ascii) :=
  let out := replicate 14 zero in
  let out := <[11%nat := "-"%char]> (<[7%nat := "."%char]> (<[3%nat := "."%char]> out)) in
  out <- put_digit value 0 0 out ;;
  out <- put_digit value 1 1 out ;;
  out <- put_digit value 2 2 out ;;
  out <- put_digit value 3 4 out ;;
  out <- put_digit value 4 5 out ;;
  out <- put_digit value 5 6 out ;;
  out <- put_digit value 6 8 out ;;
  out <- put_digit value 7 9 out ;;
  out <- put_digit value 8 10 out ;;
  out <- put_digit value 9 12 out ;;
  out <- put_digit value 10 13 out ;;
  ret out.

(** [Format] formats a CPF string to the standard format. *)
Definition Format (c : t) (value : list ascii)
  : M (result (list ascii) * t) :=
  c <- clean c value ;;
  if negb (isAccepted value) then ret (Err CPFNotValid, c)
  else if negb (Z.of_nat (slen (cpfNumber c)) =? CpfLength)
  then ret (Err (CPFLength (Z.of_nat (slen (cpfNumber c)))), c)
  else out <- maskCPF (cpfNumber c) ;; ret (Ok out, c).

(** [CheckOrigin] returns the region where the CPF was issued, based on
    the 9th digit. *)
Definition CheckOrigin (c : t) (value : list ascii)
  : M (list ascii * t) :=
  c <- clean c value ;;
  if (slen (cpfNumber c) <? 9)%nat then ret ([], c)
  else
    d <- index (cpfNumber c) 8 ;;
    ret (if d =? 0 then IsDigit0
         else if d =? 1 then IsDigit1
         else if d =? 2 then IsDigit2
         else if d =? 3 then IsDigit3
         else if d =? 4 then IsDigit4
         else if d =? 5 then IsDigit5
         else if d =? 6 then IsDigit6
         else if d =? 7 then IsDigit7
         else if d =? 8 then IsDigit8
         else if d =? 9 then IsDigit9
         else [], c).

(** The first loop of [Generate]: [number[i] = rng.Intn(10)] for the
    [n] indices from [i] on. *)
Fixpoint draw_loop (number : slice) (i n : nat) : M unit :=
  match n with
  | O => ret tt
  | S n' =>
      d <- Intn 10 ;;
      assign number i d ;;;
      draw_loop number (S i) n'
  end.

(** [Generate] generates a random CPF, unformatted. *)
Definition Generate : M (list ascii) :=
  number <- literal [0; 0; 0; 0; 0; 0; 0; 0; 0] ;;
  draw_loop number 0 9 ;;;
  dv1 <- calculateFirstDigit number ;;
  number <- append number dv1 ;;
  dv2 <- calculateSecondDigit number ;;
  number <- append number dv2 ;;
  items <- elems number ;;
  ret (digits (concat (Itoa <$> items))).

End CPF.

(** ** CNPJ: the legal-entity identifier *)

Module CNPJ.

Definition weights : list Z := [2; 3; 4; 5; 6; 7; 8; 9].

(** The tail of [calculateDV], after the loop. *)
Definition calculateDV_finish (sum : Z) : Z :=
  let remainder := rem sum 11 in
  if (remainder =? 0) || (remainder =? 1) then 0 else sub 11 remainder.

(** The loop of [calculateDV]: [i] runs from [len(value) - 1] down to 0.
    [todo] holds the bytes still to visit, nearest first, so the byte in
    hand is [value[i]] with [i = len(todo')] for the rest [todo']. *)
Fixpoint calculateDV_loop (todo : list ascii) (sum j : Z) : result Z :=
  match todo with
  | [] => Ok (calculateDV_finish sum)
  | ch :: todo' =>
      match charToValue !! code ch with
      | None => Err (InvalidCharacter ch (len todo'))
      | Some val =>
          calculateDV_loop todo'
            (add sum (mul val (weights !!! Z.to_nat j)))
            (rem (add j 1) (len weights))
      end
  end.

Definition calculateDV (value : list ascii) : result Z :=
  calculateDV_loop (reverse value) 0 0.

(** [normalizeChar] converts lowercase to uppercase and validates
    alphanumeric characters. *)
Definition normalizeChar (ch : ascii) : ascii * bool :=
  if (code "a" <=? code ch) && (code ch <=? code "z") then
    (byte (code ch - code "a" + code "A"), true)
  else if ((code "0" <=? code ch) && (code ch <=? code "9"))
          || ((code "A" <=? code ch) && (code ch <=? code "Z")) then
    (ch, true)
  else (zero, false).

(** The loop of [processRemainingChars], over [value[i:]]. *)
Fixpoint processRemainingChars_loop (todo result : list ascii)
  : list ascii :=
  match todo with
  | [] => result
  | ch :: todo' =>
      let '(normalized, ok) := normalizeChar ch in
      processRemainingChars_loop todo'
        (if ok then result ++ [normalized] else result)
  end.

(** The fallback when the buffer exceeds capacity. *)
Definition processRemainingChars (value : list ascii) (startIdx : nat)
    (existingData : list ascii) : list ascii :=
  processRemainingChars_loop (drop startIdx value) ([] ++ existingData).

(** The loop of [digits]: [todo] is [value[i:]], [buf] the 14-byte
    buffer and [n] the number of bytes written to it. *)
Fixpoint digits_loop (value todo : list ascii) (i : nat)
    (buf : list ascii) (n : nat) : list ascii :=
  match todo with
  | [] => take n buf
  | ch :: todo' =>
      let '(normalized, ok) := normalizeChar ch in
      if negb ok then digits_loop value todo' (S i) buf n
      else if (length buf <=? n)%nat then
        processRemainingChars value i (take n buf)
      else digits_loop value todo' (S i) (<[n := normalized]> buf) (S n)
  end.

(** Fast path: uppercase letters and keep only 0-9 and A-Z. *)
Definition digits (value : list ascii) : list ascii :=
  digits_loop value value 0 (replicate (Z.to_nat CnpjLength) zero) 0.

(** [Validate] verifies if an alphanumeric CNPJ is valid. The two
    indexings and the slice are in range by the length test. *)
Definition Validate (value : list ascii) : bool :=
  let cleaned := digits value in
  if negb (len cleaned =? CnpjLength) then false
  else
    let ch12 := cleaned !!! 12%nat in
    if (code ch12 <? code "0") || (code "9" <? code ch12) then false
    else
      let dv1 := code (byte (code ch12 - code "0")) in
      let ch13 := cleaned !!! 13%nat in
      if (code ch13 <? code "0") || (code "9" <? code ch13) then false
      else
        let dv2 := code (byte (code ch13 - code "0")) in
        let base := substr cleaned 0 12 in
        match calculateDV base with
        | Err _ => false
        | Ok dv1Calc =>
            match calculateDV (base ++ Itoa dv1Calc) with
            | Err _ => false
            | Ok dv2Calc => (dv1Calc =? dv1) && (dv2Calc =? dv2)
            end
        end.

(** [Format] formats a CNPJ to the standard format XX.XXX.XXX/XXXX-XX,
    built directly into an 18-byte buffer. *)
Definition Format (value : list ascii) : result (list ascii) :=
  let cleaned := digits value in
  if negb (len cleaned =? CnpjLength) then Err (CNPJLength (len cleaned))
  else
    let out := replicate 18 zero in
    let out :=
      <[15%nat := "-"%char]> (<[10%nat := "/"%char]>
        (<[6%nat := "."%char]> (<[2%nat := "."%char]> out))) in
    let out := copy out 0 2 (substr cleaned 0 2) in
    let out := copy out 3 6 (substr cleaned 2 5) in
    let out := copy out 7 10 (substr cleaned 5 8) in
    let out := copy out 11 15 (substr cleaned 8 12) in
    let out := copy out 16 18 (substr cleaned 12 14) in
    Ok out.

(** The loops of [generateDigits]: [base[i] = ...] for the [n] indices
    from [i] on. *)
Fixpoint legacy_loop (base : list ascii) (i n : nat) : M (list ascii) :=
  match n with
  | O => ret base
  | S n' =>
      d <- Intn 10 ;;
      legacy_loop (<[i := byte (add (code "0") d)]> base) (S i) n'
  end.

Fixpoint alnum_loop (base : list ascii) (i n : nat) : M (list ascii) :=
  match n with
  | O => ret base
  | S n' =>
      k <- Intn 2 ;;
      if k =? 0 then
        d <- Intn 10 ;;
        alnum_loop (<[i := byte (add (code "0") d)]> base) (S i) n'
      else
        d <- Intn 26 ;;
        alnum_loop (<[i := byte (add (code "A") d)]> base) (S i) n'
  end.

(** Build a 12-char base, then the two check digits. *)
Definition generateDigits (legacy : bool) : M (list ascii) :=
  let base := replicate 12 zero in
  cnpjBase <- (if legacy then legacy_loop base 0 12
               else alnum_loop base 0 12) ;;
  match calculateDV cnpjBase with
  | Err _ => ret []
  | Ok dv1 =>
      match calculateDV (cnpjBase ++ Itoa dv1) with
      | Err _ => ret []
      | Ok dv2 => ret (cnpjBase ++ Itoa dv1 ++ Itoa dv2)
      end
  end.

(** [Generate] generates an alphanumeric CNPJ. *)
Definition Generate : M (list ascii) := generateDigits false.

(** [GenerateLegacy] generates a numeric-only (legacy) CNPJ. *)
Definition GenerateLegacy : M (list ascii) := generateDigits true.

End CNPJ.

(** ** Utility functions *)

Section Utility.

(** [strings.ToUpper], from the Go standard library: the package calls
    it on arbitrary text, where it follows the Unicode case tables. *)
Variable ToUpper : list ascii -> list ascii.

(** [ValidateDocument] automatically identifies and validates CPF or
    CNPJ. *)
Definition ValidateDocument (doc : list ascii) : M (list ascii * bool) :=
  let cleaned := removeAll "." doc in
  let cleaned := removeAll "-" cleaned in
  let cleaned := removeAll "/" cleaned in
  let cleaned := ToUpper cleaned in
  if len cleaned =? CpfLength then
    let cpf := CPF.NewCPF in
    r <- CPF.Validate cpf doc ;;
    ret (str "CPF", r.1)
  else if len cleaned =? CnpjLength then
    ret (str "CNPJ", CNPJ.Validate doc)
  else ret (str "UNKNOWN", false).

End Utility.

(** [strings.ToUpper] on text that is all ASCII: byte by byte. *)
Definition asciiToUpper (s : list ascii) : list ascii :=
  (fun ch =>
     if (code "a" <=? code ch) && (code ch <=? code "z")
     then byte (code ch - 32) else ch) <$> s.

(** ** The check-digit verification of the first release *)

(** [validator.go]: [calculateFirstDigit], [calculateSecondDigit] and
    [validate] of [CPF], which index their argument and write nothing. *)

Module Legacy.

(** The loop [for i := 0; i < n; i++ { sum += values[i] * (w - i) }],
    from index [i] on. *)
Fixpoint sum_loop (w : Z) (values : slice) (i : nat) (n : nat) (sum : Z)
  : M Z :=
  match n with
  | O => ret sum
  | S n' =>
      v <- index values i ;;
      sum_loop w values (S i) n' (add sum (mul v (sub w (Z.of_nat i))))
  end.

Definition clamp (sum : Z) : Z :=
  let rest := rem (mul sum 10) 11 in
  if (rest =? 10) || (rest =? 11) then 0 else rest.

Definition calculateFirstDigit (values : slice) : M Z :=
  sum <- sum_loop 10 values 0 9 0 ;;
  ret (clamp sum).

Definition calculateSecondDigit (values : slice) : M Z :=
  sum <- sum_loop 11 values 0 10 0 ;;
  ret (clamp sum).

(** [calculateFirstDigit(values) == values[9] &&
    calculateSecondDigit(values) == values[10]], after the length test. *)
Definition validate (values : slice) : M bool :=
  if negb (Z.of_nat (slen values) =? 11) then ret false
  else
    dv1 <- calculateFirstDigit values ;;
    a <- index values 9 ;;
    if negb (dv1 =? a) then ret false
    else
      dv2 <- calculateSecondDigit values ;;
      b <- index values 10 ;;
      ret (dv2 =? b).

End Legacy.

(** ** The command line *)

(** [cmd/brdoc/main.go]: what the [cpf] and [cnpj] commands write once
    their flags are read. The writer is the text written so far; the lines
    of a bulk run are the tokens [scanner.Scan] yields, in order. *)

Module Cli.

(** The modes the flags select. *)
Inductive mode : Type := ModeGenerate | ModeFrom | ModeValidate.

(** The three refusals of a flag combination, by message. *)
Inductive flag_error : Type :=
| GenerateWithOthers
    (* "--generate cannot be used with --validate or --from" *)
| FromWithValidate
    (* "--from and --validate are mutually exclusive for ..." *)
| NoMode.
    (* "either --generate, --validate, or --from must be provided" *)

(** The flag tests at the head of both [RunE] functions, and the branch
    taken after them. A string flag is given iff it is not empty. *)
Definition check_flags (generate : bool) (validate from : list ascii)
  : flag_error + mode :=
  if generate && (negb (bool_decide (validate = []))
                  || negb (bool_decide (from = []))) then
    inl GenerateWithOthers
  else if negb (bool_decide (from = []))
          && negb (bool_decide (validate = [])) then
    inl FromWithValidate
  else if negb generate && bool_decide (validate = [])
          && bool_decide (from = []) then
    inl NoMode
  else if generate then inr ModeGenerate
  else if negb (bool_decide (from = [])) then inr ModeFrom
  else inr ModeValidate.

(** [strings.HasPrefix]. *)
Definition HasPrefix (s prefix : list ascii) : bool :=
  (length prefix <=? length s)%nat
  && bool_decide (take (length prefix) s = prefix).

(** [fmt.Fprintln(w, s)] and [fmt.Fprintf(w, "valid\t%s\n", s)],
    [fmt.Fprintf(w, "invalid\t%s\n", s)]. *)
Definition Fprintln (w s : list ascii) : list ascii :=
  w ++ s ++ ["010"%char].

Definition Fprintf_valid (w s : list ascii) : list ascii :=
  w ++ str "valid" ++ ["009"%char] ++ s ++ ["010"%char].

Definition Fprintf_invalid (w s : list ascii) : list ascii :=
  w ++ str "invalid" ++ ["009"%char] ++ s ++ ["010"%char].

(** *** The [cpf] command *)





Section Bulk.

(** [strings.TrimSpace], from the Go standard library. *)
Variable TrimSpace : list ascii -> list ascii.



(** *** The [cnpj] command *)

Definition cnpj_write_valid (value w : list ascii) : list ascii :=
  match CNPJ.Format value with
  | Ok formatted => Fprintf_valid w formatted
  | Err _ => Fprintln w (str "valid")
  end.

Fixpoint cnpj_bulk_loop (texts : list (list ascii)) (w : list ascii)
    (anyInvalid : bool) : list ascii * bool :=
  match texts with
  | [] => (w, anyInvalid)
  | text :: texts' =>
      let line := TrimSpace text in
      if bool_decide (line = []) || HasPrefix line (str "#") then
        cnpj_bulk_loop texts' w anyInvalid
      else if CNPJ.Validate line then
        cnpj_bulk_loop texts' (cnpj_write_valid line w) anyInvalid
      else cnpj_bulk_loop texts' (Fprintf_invalid w line) true
  end.

Definition cnpj_bulk (texts : list (list ascii)) (w : list ascii)
  : list ascii * bool :=
  cnpj_bulk_loop texts w false.

End Bulk.

Definition cnpj_single (cnpjValidate w : list ascii) : list ascii * bool :=
  if CNPJ.Validate cnpjValidate then (cnpj_write_valid cnpjValidate w, false)
  else (Fprintln w (str "invalid"), true).




End Cli.

(** ** Reference definitions, written from the specification *)

Module Ref.

Definition is_digit (c : ascii) : bool := (48 <=? code c) && (code c <=? 57).
Definition is_upper (c : ascii) : bool := (65 <=? code c) && (code c <=? 90).
Definition is_alnum (c : ascii) : bool := is_digit c || is_upper c.

(** Digits map to 0-9, letters A-Z to 17-42. *)
Definition char_value (c : ascii) : Z :=
  if is_digit c then code c - 48 else 17 + (code c - 65).

(** The weight of the [k]-th character counted from the right: the cycle
    2, 3, ..., 9 started at 2. *)
Definition cnpj_weight (k : nat) : Z := 2 + Z.of_nat (k mod 8).

Definition sumZ (l : list Z) : Z := foldr Z.add 0 l.

Definition cnpj_weighted_sum (s : list ascii) : Z :=
  sumZ (imap (fun k c => char_value c * cnpj_weight k) (reverse s)).

Definition cnpj_check_digit (s : list ascii) : Z :=
  let r := cnpj_weighted_sum s mod 11 in
  if decide (r = 0 \/ r = 1) then 0 else 11 - r.

(** The decimal digit character of a value from 0 to 9. *)
Definition digit_char (d : Z) : ascii := byte (48 + d).

Definition to_upper (c : ascii) : ascii :=
  if (97 <=? code c) && (code c <=? 122) then byte (code c - 32) else c.

(** The normalized form of a CNPJ: uppercased, then stripped of every
    character that is not a digit or a letter A-Z. *)
Definition cnpj_normalize (raw : list ascii) : list ascii :=
  filter (fun c => is_alnum c = true) (to_upper <$> raw).

(** A normalized CNPJ is valid: 14 characters, the last two digits, and
    both check digits recomputed from the first 12 characters. *)
Definition cnpj_valid (n : list ascii) : Prop :=
  length n = 14%nat
  /\ is_digit (n !!! 12%nat) = true
  /\ is_digit (n !!! 13%nat) = true
  /\ cnpj_check_digit (take 12 n) = code (n !!! 12%nat) - 48
  /\ cnpj_check_digit
       (take 12 n ++ [digit_char (cnpj_check_digit (take 12 n))])
     = code (n !!! 13%nat) - 48.

(** The rendering XX.XXX.XXX/XXXX-XX of 14 characters. *)
Definition cnpj_render (n : list ascii) : list ascii :=
  take 2 n ++ str "." ++ take 3 (drop 2 n) ++ str "."
    ++ take 3 (drop 5 n) ++ str "/" ++ take 4 (drop 8 n) ++ str "-"
    ++ take 2 (drop 12 n).

(** The digit-only form of a CPF, as characters and as values. *)
Definition cpf_digits (raw : list ascii) : list ascii :=
  filter (fun c => is_digit c = true) raw.

Definition cpf_values (raw : list ascii) : list Z :=
  (fun c => code c - 48) <$> cpf_digits raw.

(** One of the ten sequences of 11 equal digits. *)
Definition degenerate (ds : list ascii) : Prop :=
  exists d, is_digit d = true /\ ds = replicate 11 d.

(** Digit [i], counted from the left from 0, weighs [w - i]. *)
Definition cpf_weighted_sum (w : Z) (ds : list Z) : Z :=
  sumZ (imap (fun i d => d * (w - Z.of_nat i)) ds).

Definition cpf_check (w : Z) (ds : list Z) : Z :=
  let r := (cpf_weighted_sum w ds * 10) mod 11 in
  if decide (r = 10 \/ r = 11) then 0 else r.

(** First check digit, of a 9-digit body; second check digit, of the
    first 10 digits. *)
Definition cpf_first_digit (body : list Z) : Z := cpf_check 10 body.
Definition cpf_second_digit (ds : list Z) : Z := cpf_check 11 ds.

(** A raw CPF is valid: not degenerate, 11 digits, and both check digits
    as given match the ones recomputed from the digits before them. *)
Definition cpf_valid (raw : list ascii) : Prop :=
  let ds := cpf_values raw in
  ~ degenerate (cpf_digits raw)
  /\ length ds = 11%nat
  /\ ds !! 9%nat = Some (cpf_first_digit (take 9 ds))
  /\ ds !! 10%nat = Some (cpf_second_digit (take 10 ds)).

(** The rendering XXX.XXX.XXX-XX of 11 digit characters. *)
Definition cpf_render (ds : list ascii) : list ascii :=
  take 3 ds ++ str "." ++ take 3 (drop 3 ds) ++ str "."
    ++ take 3 (drop 6 ds) ++ str "-" ++ take 2 (drop 9 ds).

(** A document stripped of the three separators. *)
Definition strip_separators (raw : list ascii) : list ascii :=
  filter (fun c => c <> "."%char /\ c <> "-"%char /\ c <> "/"%char) raw.

(** The region label of the digit at index 8. *)
Definition region (d : Z) : list ascii :=
  nth (Z.to_nat d)
    [IsDigit0; IsDigit1; IsDigit2; IsDigit3; IsDigit4;
     IsDigit5; IsDigit6; IsDigit7; IsDigit8; IsDigit9] [].

End Ref.

(** A header is usable in a store: its length is within its capacity and
    its capacity within its array. *)
Definition slice_ok (s : slice) (h : list (list Z)) : Prop :=
  (slen s <= scap s)%nat /\ (scap s <= length (array_of s h))%nat.

(** What [CPF.validate] decides on the 11 digits [ds] it is given: the
    digit at index 10 against the second check digit of the first 9 digits
    followed by the recomputed first check digit. The digit at index 9 is
    overwritten by [append] before it is compared, so it plays no part. *)
Definition validate_decides (ds : list Z) : bool :=
  bool_decide
    (ds !! 10%nat
     = Some (Ref.cpf_second_digit
               (take 9 ds ++ [Ref.cpf_first_digit (take 9 ds)]))).

(** What [Legacy.validate] decides: both check digits as given. *)
Definition legacy_decides (ds : list Z) : bool :=
  bool_decide (ds !! 9%nat = Some (Ref.cpf_first_digit (take 9 ds)))
  && bool_decide (ds !! 10%nat = Some (Ref.cpf_second_digit (take 10 ds))).

(** The digits of a generated CPF: a body of 9 digits, then the two
    reference check digits. *)
Definition generated (body : list Z) : list Z :=
  body ++ [Ref.cpf_first_digit body;
           Ref.cpf_second_digit (body ++ [Ref.cpf_first_digit body])].

(** What the three public methods of [CPF] answer, read off their code
    with [clean] replaced by the digits it leaves: the answers are
    functions of the input alone. *)
Definition cpf_answer (value : list ascii) : bool :=
  CPF.isAccepted value
  && bool_decide (length (Ref.cpf_values value) = 11%nat)
  && validate_decides (Ref.cpf_values value).

Definition cpf_format_answer (value : list ascii) : result (list ascii) :=
  if negb (CPF.isAccepted value) then Err CPFNotValid
  else if bool_decide (length (Ref.cpf_digits value) = 11%nat)
  then Ok (Ref.cpf_render (Ref.cpf_digits value))
  else Err (CPFLength (len (Ref.cpf_digits value))).

Definition cpf_origin_answer (value : list ascii) : list ascii :=
  match Ref.cpf_values value !! 8%nat with
  | Some d => Ref.region d
  | None => []
  end.

(** The first [n] results of [rng.Intn(10)] from a source [r]. *)
Definition drawn (r : nat -> nat) (n : nat) : list Z :=
  (fun k => Z.of_nat (r k) mod 10) <$> seq 0 n.

(** The values an element of [cpfNumber] takes. *)
Definition is_digit_value (v : Z) : Prop := 0 <= v <= 9.

(** A store with one array, the digits of 123.456.789-09, and a random
    source stuck at 0; the store [NewCPF] starts from, with a given
    source. *)
Definition sample_store : state :=
  State [[1; 2; 3; 4; 5; 6; 7; 8; 9; 0; 9]] (fun _ => 0%nat).

Definition empty_store (r : nat -> nat) : state := State [] r.

(** What a validating run of the command line writes for one line of
    its input, and whether the line counts as invalid: nothing for a line
    that is skipped, else one line of output. *)
Definition skipped (line : list ascii) : bool :=
  bool_decide (line = []) || Cli.HasPrefix line (str "#").



Definition cnpj_line_report (line : list ascii) : list ascii :=
  if skipped line then []
  else if CNPJ.Validate line then
    str "valid" ++ ["009"%char] ++ Ref.cnpj_render (Ref.cnpj_normalize line)
      ++ ["010"%char]
  else str "invalid" ++ ["009"%char] ++ line ++ ["010"%char].

Definition cnpj_line_invalid (line : list ascii) : bool :=
  negb (skipped line) && negb (CNPJ.Validate line).


(** ** Properties *)

(** *** Integers and bytes *)

Lemma wrap_small z : - 2 ^ 63 <= z < 2 ^ 63 -> wrap z = z.
Proof.
  intros Hz. unfold wrap.
  rewrite Z.mod_small by lia. lia.
Qed.

Lemma code_range c : 0 <= code c < 256.
Proof.
  unfold code. destruct c as [[] [] [] [] [] [] [] []]; vm_compute; split; congruence.
Qed.

(** The map agrees with the reference value on the alphabet and is
    undefined outside it. *)
Lemma charToValue_spec c :
  charToValue !! code c =
    if Ref.is_alnum c then Some (Ref.char_value c) else None.
Proof.
  destruct c as [[] [] [] [] [] [] [] []]; vm_compute; reflexivity.
Qed.

Lemma add_small a b : - 2 ^ 63 <= a + b < 2 ^ 63 -> add a b = a + b.
Proof. apply wrap_small. Qed.

Lemma sub_small a b : - 2 ^ 63 <= a - b < 2 ^ 63 -> sub a b = a - b.
Proof. apply wrap_small. Qed.

Lemma mul_small a b : - 2 ^ 63 <= a * b < 2 ^ 63 -> mul a b = a * b.
Proof. apply wrap_small. Qed.

Lemma rem_nonneg a b : 0 <= a -> 0 < b -> rem a b = a mod b.
Proof. intros. unfold rem. apply Z.rem_mod_nonneg; lia. Qed.

Lemma code_byte x : 0 <= x < 256 -> code (byte x) = x.
Proof.
  intros Hx. unfold code, byte.
  rewrite Z.mod_small by lia.
  rewrite N_ascii_embedding by lia. lia.
Qed.

Lemma byte_code c : byte (code c) = c.
Proof.
  unfold code, byte. pose proof (code_range c) as Hc. unfold code in Hc.
  rewrite Z.mod_small by lia.
  rewrite N2Z.id. apply ascii_N_embedding.
Qed.

(** *** The CNPJ check digit *)

Lemma char_value_range c : Ref.is_alnum c = true -> 0 <= Ref.char_value c <= 42.
Proof.
  unfold Ref.is_alnum, Ref.char_value, Ref.is_digit, Ref.is_upper.
  intros H. destruct (_ && _) eqn:E in H |- *; simpl in H; lia.
Qed.

Lemma weights_lookup (j : nat) :
  (j < 8)%nat -> CNPJ.weights !!! j = 2 + Z.of_nat j.
Proof.
  intros Hj. do 8 (destruct j as [|j]; [reflexivity|]). lia.
Qed.

Lemma next_weight_index (k : nat) :
  rem (add (Z.of_nat (k mod 8)) 1) (len CNPJ.weights) = Z.of_nat (S k mod 8).
Proof.
  pose proof (Nat.mod_upper_bound k 8 ltac:(lia)) as Hk.
  rewrite add_small by lia.
  rewrite rem_nonneg by (unfold len; simpl; lia).
  change (len CNPJ.weights) with 8.
  rewrite (Nat2Z.inj_mod (S k) 8), (Nat2Z.inj_mod k 8).
  change (Z.of_nat 8) with 8. rewrite Nat2Z.inj_succ, <- Z.add_1_r.
  apply Zplus_mod_idemp_l.
Qed.

Lemma calculateDV_loop_ok todo : forall (k : nat) sum,
  Forall (fun c => Ref.is_alnum c = true) todo ->
  0 <= sum <= 378 * Z.of_nat k ->
  Z.of_nat k + len todo < 2 ^ 48 ->
  CNPJ.calculateDV_loop todo sum (Z.of_nat (k mod 8)) =
    Ok (CNPJ.calculateDV_finish
          (sum + Ref.sumZ (imap (fun i c => Ref.char_value c * Ref.cnpj_weight (k + i)) todo))).
Proof.
  induction todo as [|ch todo IH]; intros k sum Hall Hsum Hlen.
  - simpl. rewrite Z.add_0_r. reflexivity.
  - apply Forall_cons in Hall as [Hch Hall].
    cbn [CNPJ.calculateDV_loop].
    rewrite charToValue_spec, Hch.
    pose proof (char_value_range ch Hch) as Hv.
    pose proof (Nat.mod_upper_bound k 8 ltac:(lia)) as Hk.
    rewrite Nat2Z.id, weights_lookup by lia.
    rewrite next_weight_index.
    unfold len in Hlen. simpl length in Hlen.
    rewrite mul_small by nia.
    rewrite add_small by nia.
    rewrite IH; [| assumption | nia | unfold len; lia].
    f_equal. f_equal.
    rewrite imap_cons. simpl Ref.sumZ.
    rewrite Nat.add_0_r. unfold Ref.cnpj_weight at 2.
    rewrite <- Z.add_assoc. f_equal. f_equal.
    f_equal. apply imap_ext. intros i x _. simpl. do 2 f_equal. lia.
Qed.

Lemma sumZ_imap_nonneg_lookup {A} (l : list A) : forall f : nat -> A -> Z,
  (forall i x, l !! i = Some x -> 0 <= f i x) -> 0 <= Ref.sumZ (imap f l).
Proof.
  induction l as [|x l IH]; intros f Hf; simpl; [lia|].
  assert (0 <= f 0%nat x) by (by apply Hf).
  assert (0 <= Ref.sumZ (imap (f ∘ S) l)).
  { apply IH. intros i y Hy. by apply Hf. }
  lia.
Qed.

Lemma cnpj_weighted_sum_nonneg s :
  Forall (fun c => Ref.is_alnum c = true) s -> 0 <= Ref.cnpj_weighted_sum s.
Proof.
  intros Hall. apply sumZ_imap_nonneg_lookup. intros i c Hc.
  apply list_elem_of_lookup_2 in Hc. rewrite elem_of_reverse in Hc.
  rewrite Forall_forall in Hall.
  pose proof (char_value_range c (Hall c Hc)).
  unfold Ref.cnpj_weight. nia.
Qed.

Lemma calculateDV_finish_ref s :
  0 <= s ->
  CNPJ.calculateDV_finish s =
    (let r := s mod 11 in if decide (r = 0 \/ r = 1) then 0 else 11 - r).
Proof.
  intros Hs. unfold CNPJ.calculateDV_finish.
  rewrite rem_nonneg by lia.
  pose proof (Z.mod_pos_bound s 11 ltac:(lia)) as Hr.
  cbv zeta. destruct (decide _) as [[->| ->]|Hn]; [reflexivity..|].
  destruct (Z.eqb_spec (s mod 11) 0); [lia|].
  destruct (Z.eqb_spec (s mod 11) 1); [lia|].
  simpl. apply sub_small. lia.
Qed.

Lemma cnpj_check_digit_range s : 0 <= Ref.cnpj_check_digit s <= 9.
Proof.
  unfold Ref.cnpj_check_digit.
  pose proof (Z.mod_pos_bound (Ref.cnpj_weighted_sum s) 11 ltac:(lia)) as Hr.
  cbv zeta. destruct (decide _); lia.
Qed.

Lemma calculateDV_ok value :
  len value < 2 ^ 48 ->
  Forall (fun c => Ref.is_alnum c = true) value ->
  CNPJ.calculateDV value = Ok (Ref.cnpj_check_digit value).
Proof.
  intros Hlen Hall. unfold CNPJ.calculateDV.
  pose proof (calculateDV_loop_ok (reverse value) 0 0) as Hloop.
  change (Z.of_nat (0 `mod` 8)) with 0 in Hloop.
  rewrite Hloop.
  - rewrite Z.add_0_l.
    rewrite calculateDV_finish_ref; [reflexivity|].
    by apply cnpj_weighted_sum_nonneg.
  - by apply Forall_reverse.
  - lia.
  - unfold len in *. rewrite length_reverse. lia.
Qed.

Lemma calculateDV_loop_err todo : forall sum j,
  ~ Forall (fun c => Ref.is_alnum c = true) todo ->
  exists ch pos,
    CNPJ.calculateDV_loop todo sum j = Err (InvalidCharacter ch pos)
    /\ Ref.is_alnum ch = false
    /\ reverse todo !! Z.to_nat pos = Some ch.
Proof.
  induction todo as [|c todo IH]; intros sum j Hn.
  - destruct Hn. constructor.
  - cbn [CNPJ.calculateDV_loop]. rewrite charToValue_spec.
    destruct (Ref.is_alnum c) eqn:Hc.
    + destruct (IH (add sum (mul (Ref.char_value c) (CNPJ.weights !!! Z.to_nat j)))
                   (rem (add j 1) (len CNPJ.weights))) as (ch & pos & -> & Hch & Hpos).
      { intros Hall. apply Hn. by constructor. }
      exists ch, pos. split_and!; [done..|].
      rewrite reverse_cons. by apply lookup_app_l_Some.
    + exists c, (len todo). split_and!; [done..|].
      unfold len. rewrite Nat2Z.id, reverse_cons.
      rewrite lookup_app_r by (rewrite length_reverse; lia).
      rewrite length_reverse, Nat.sub_diag. reflexivity.
Qed.

(** C2. [calculateDV] is the reference check digit: on a string over
    0-9, A-Z (of a length that fits in memory) it returns the digit
    obtained from the values 0-9 and 17-42, the weights 2, 3, ..., 9
    cycled from the right, the sum modulo 11, and 0 for a remainder of 0
    or 1, else 11 minus the remainder; on a string with a character
    outside 0-9, A-Z it returns an error that names such a character. The
    check digits of 12ABC34501DE are 3 and 5. *)
Theorem calculateDV_reference (value : list ascii) :
  (len value < 2 ^ 48 ->
   Forall (fun c => Ref.is_alnum c = true) value ->
   CNPJ.calculateDV value = Ok (Ref.cnpj_check_digit value))
  /\ (~ Forall (fun c => Ref.is_alnum c = true) value ->
      exists ch pos,
        CNPJ.calculateDV value = Err (InvalidCharacter ch pos)
        /\ Ref.is_alnum ch = false
        /\ value !! Z.to_nat pos = Some ch)
  /\ CNPJ.calculateDV (str "12ABC34501DE") = Ok 3
  /\ CNPJ.calculateDV (str "12ABC34501DE3") = Ok 5.
Proof.
  split_and!.
  - apply calculateDV_ok.
  - intros Hn. unfold CNPJ.calculateDV.
    destruct (calculateDV_loop_err (reverse value) 0 0) as (ch & pos & H1 & H2 & H3).
    { intros Hall. apply Hn. apply Forall_reverse in Hall. by rewrite reverse_involutive in Hall. }
    rewrite reverse_involutive in H3. eauto.
  - reflexivity.
  - reflexivity.
Qed.

Lemma calculateDV_reference_witness :
  CNPJ.calculateDV (str "12ABC34501DE") = Ok (Ref.cnpj_check_digit (str "12ABC34501DE")).
Proof.
  apply (proj1 (calculateDV_reference (str "12ABC34501DE"))).
  - reflexivity.
  - repeat constructor.
Defined.

(** *** The CPF check digits *)

Lemma weighted_loop_ok w xs : forall i sum,
  Forall is_digit_value xs ->
  0 <= w <= 2 ^ 20 ->
  0 <= i -> i + len xs <= 2 ^ 20 ->
  - 2 ^ 25 * i <= sum <= 2 ^ 25 * i ->
  let total :=
    sum + Ref.sumZ (imap (fun k v => v * (w - (i + Z.of_nat k))) xs) in
  CPF.weighted_loop w xs i sum = total
  /\ - 2 ^ 25 * (i + len xs) <= total <= 2 ^ 25 * (i + len xs).
Proof.
  induction xs as [|v xs IH]; intros i sum Hall Hw Hi Hlen Hsum; cbv zeta.
  - simpl. unfold len. simpl. split; lia.
  - apply Forall_cons in Hall as [Hv Hall]. red in Hv.
    unfold len in Hlen |- *. simpl length in Hlen |- *.
    cbn [CPF.weighted_loop].
    assert (- 2 ^ 24 <= v * (w - i) <= 2 ^ 24) as Hterm by nia.
    rewrite sub_small, mul_small by lia.
    rewrite (add_small i 1), (add_small sum) by lia.
    destruct (IH (i + 1) (sum + v * (w - i))) as [-> Hb];
      [assumption | lia | lia | unfold len; lia | lia |].
    unfold len in Hb. cbv zeta in Hb.
    rewrite imap_cons. simpl Ref.sumZ.
    rewrite Z.add_0_r.
    assert (imap ((fun (k : nat) v0 => v0 * (w - (i + Z.of_nat k))) ∘ S) xs
            = imap (fun (k : nat) v0 => v0 * (w - (i + 1 + Z.of_nat k))) xs) as ->.
    { apply imap_ext. intros k x _. simpl. f_equal. lia. }
    split; lia.
Qed.

Lemma cpf_weighted_sum_nonneg w xs :
  Forall is_digit_value xs -> len xs <= w -> 0 <= Ref.cpf_weighted_sum w xs.
Proof.
  intros Hall Hlen. apply sumZ_imap_nonneg_lookup. intros i x Hx.
  pose proof (lookup_lt_Some _ _ _ Hx) as Hi.
  apply (Forall_lookup_1 _ _ _ _ Hall) in Hx. red in Hx.
  unfold len in Hlen. nia.
Qed.

Lemma cpf_check_range w xs : 0 <= Ref.cpf_check w xs <= 9.
Proof.
  unfold Ref.cpf_check.
  pose proof (Z.mod_pos_bound (Ref.cpf_weighted_sum w xs * 10) 11 ltac:(lia)).
  cbv zeta. destruct (decide _); lia.
Qed.

(** The digit computed by the loop and the clamp is the reference one,
    for as many digits as the first weight allows. *)
Lemma calculate_digit_ok w xs :
  Forall is_digit_value xs -> len xs <= w <= 2 ^ 20 ->
  CPF.clamp (CPF.weighted_loop w xs 0 0) = Ref.cpf_check w xs.
Proof.
  intros Hall Hw.
  destruct (weighted_loop_ok w xs 0 0) as [-> Hb];
    [assumption | unfold len in *; lia | lia | lia | lia |].
  cbv zeta in Hb. rewrite Z.add_0_l in Hb |- *.
  assert (imap (fun (k : nat) v => v * (w - (0 + Z.of_nat k))) xs
          = imap (fun (i : nat) d => d * (w - Z.of_nat i)) xs) as Heq.
  { apply imap_ext. intros k x _. simpl. f_equal. }
  rewrite Heq in Hb |- *. fold (Ref.cpf_weighted_sum w xs) in Hb |- *.
  pose proof (cpf_weighted_sum_nonneg w xs Hall ltac:(lia)) as Hnn.
  unfold CPF.clamp, Ref.cpf_check.
  rewrite mul_small by lia. rewrite rem_nonneg by lia.
  cbv zeta. destruct (decide _) as [[->| ->]|Hn]; [reflexivity..|].
  destruct (Z.eqb_spec (Ref.cpf_weighted_sum w xs * 10 mod 11) 10); [lia|].
  destruct (Z.eqb_spec (Ref.cpf_weighted_sum w xs * 10 mod 11) 11); [lia|].
  reflexivity.
Qed.

(** *** The two scanners *)

Lemma processRemainingDigits_loop_ok todo : forall result,
  CPF.processRemainingDigits_loop todo result = result ++ Ref.cpf_digits todo.
Proof.
  induction todo as [|ch todo IH]; intros result.
  - simpl. by rewrite app_nil_r.
  - cbn [CPF.processRemainingDigits_loop].
    change (CPF.isDigit ch) with (Ref.is_digit ch).
    rewrite IH. unfold Ref.cpf_digits. rewrite filter_cons.
    destruct (decide (Ref.is_digit ch = true)) as [E|E].
    + rewrite E. by rewrite <- app_assoc.
    + apply not_true_is_false in E. by rewrite E.
Qed.

Lemma drop_step {A} (value : list A) i ch todo :
  drop i value = ch :: todo -> drop (S i) value = todo.
Proof.
  intros H. replace (S i) with (i + 1)%nat by lia.
  rewrite <- drop_drop, H. reflexivity.
Qed.

Lemma cpf_digits_loop_ok value todo : forall i (seen pad : list ascii),
  drop i value = todo ->
  CPF.digits_loop value todo i (seen ++ pad) (length seen)
  = seen ++ Ref.cpf_digits todo.
Proof.
  induction todo as [|ch todo IH]; intros i seen pad Hdrop.
  - simpl. rewrite take_app_length.
    change (Ref.cpf_digits []) with (@nil ascii). by rewrite app_nil_r.
  - cbn [CPF.digits_loop]. unfold Ref.cpf_digits. rewrite filter_cons.
    fold (Ref.cpf_digits todo).
    change (CPF.isDigit ch) with (Ref.is_digit ch).
    destruct (decide (Ref.is_digit ch = true)) as [E|E].
    + rewrite E. simpl negb. cbv iota.
      rewrite length_app.
      destruct pad as [|p pad].
      * simpl length. rewrite Nat.add_0_r.
        rewrite (proj2 (Nat.leb_le _ _)) by lia.
        unfold CPF.processRemainingDigits. rewrite Hdrop.
        rewrite app_nil_r, take_ge by lia. simpl app.
        rewrite processRemainingDigits_loop_ok.
        unfold Ref.cpf_digits at 1. rewrite filter_cons.
        by rewrite decide_True by done.
      * simpl length.
        rewrite (proj2 (Nat.leb_gt _ _)) by lia.
        replace (<[length seen := ch]> (seen ++ p :: pad))
          with ((seen ++ [ch]) ++ pad).
        2:{ rewrite <- app_assoc. simpl.
            replace (length seen) with (length seen + 0)%nat at 1 by lia.
            by rewrite insert_app_r. }
        replace (S (length seen)) with (length (seen ++ [ch]))
          by (rewrite length_app; simpl; lia).
        rewrite (IH (S i)) by (by eapply drop_step).
        by rewrite <- app_assoc.
    + apply not_true_is_false in E. rewrite E. simpl negb. cbv iota.
      apply IH. by eapply drop_step.
Qed.

(** [digits] keeps exactly the decimal digits, however long the input. *)
Lemma cpf_digits_ok value : CPF.digits value = Ref.cpf_digits value.
Proof.
  unfold CPF.digits.
  apply (cpf_digits_loop_ok value value 0%nat [] (replicate (Z.to_nat CpfLength) zero)).
  reflexivity.
Qed.

Lemma normalizeChar_ref c :
  CNPJ.normalizeChar c =
    if Ref.is_alnum (Ref.to_upper c) then (Ref.to_upper c, true)
    else (zero, false).
Proof.
  destruct c as [[] [] [] [] [] [] [] []]; vm_compute; reflexivity.
Qed.

Lemma cnpj_normalize_cons c raw :
  Ref.cnpj_normalize (c :: raw) =
    if Ref.is_alnum (Ref.to_upper c)
    then Ref.to_upper c :: Ref.cnpj_normalize raw
    else Ref.cnpj_normalize raw.
Proof.
  unfold Ref.cnpj_normalize. rewrite fmap_cons, filter_cons.
  destruct (decide _) as [E|E].
  - by rewrite E.
  - apply not_true_is_false in E. by rewrite E.
Qed.

Lemma processRemainingChars_loop_ok todo : forall result,
  CNPJ.processRemainingChars_loop todo result
  = result ++ Ref.cnpj_normalize todo.
Proof.
  induction todo as [|ch todo IH]; intros result.
  - simpl. by rewrite app_nil_r.
  - cbn [CNPJ.processRemainingChars_loop].
    rewrite normalizeChar_ref, cnpj_normalize_cons.
    destruct (Ref.is_alnum (Ref.to_upper ch)); rewrite IH.
    + by rewrite <- app_assoc.
    + done.
Qed.

Lemma cnpj_digits_loop_ok value todo : forall i (seen pad : list ascii),
  drop i value = todo ->
  CNPJ.digits_loop value todo i (seen ++ pad) (length seen)
  = seen ++ Ref.cnpj_normalize todo.
Proof.
  induction todo as [|ch todo IH]; intros i seen pad Hdrop.
  - simpl. rewrite take_app_length.
    change (Ref.cnpj_normalize []) with (@nil ascii). by rewrite app_nil_r.
  - cbn [CNPJ.digits_loop].
    rewrite normalizeChar_ref, cnpj_normalize_cons.
    destruct (Ref.is_alnum (Ref.to_upper ch)) eqn:E; simpl negb; cbv iota.
    + rewrite length_app.
      destruct pad as [|p pad].
      * simpl length. rewrite Nat.add_0_r.
        rewrite (proj2 (Nat.leb_le _ _)) by lia.
        unfold CNPJ.processRemainingChars. rewrite Hdrop.
        rewrite app_nil_r, take_ge by lia. simpl app.
        rewrite processRemainingChars_loop_ok.
        by rewrite cnpj_normalize_cons, E.
      * simpl length.
        rewrite (proj2 (Nat.leb_gt _ _)) by lia.
        replace (<[length seen := Ref.to_upper ch]> (seen ++ p :: pad))
          with ((seen ++ [Ref.to_upper ch]) ++ pad).
        2:{ rewrite <- app_assoc. simpl.
            replace (length seen) with (length seen + 0)%nat at 1 by lia.
            by rewrite insert_app_r. }
        replace (S (length seen)) with (length (seen ++ [Ref.to_upper ch]))
          by (rewrite length_app; simpl; lia).
        rewrite (IH (S i)) by (by eapply drop_step).
        by rewrite <- app_assoc.
    + apply IH. by eapply drop_step.
Qed.

(** [digits] is the normalization: uppercase, then keep 0-9 and A-Z. *)
Lemma cnpj_digits_ok value : CNPJ.digits value = Ref.cnpj_normalize value.
Proof.
  unfold CNPJ.digits.
  apply (cnpj_digits_loop_ok value value 0%nat [] (replicate (Z.to_nat CnpjLength) zero)).
  reflexivity.
Qed.

(** *** The store *)

Lemma growcap_gt c : (c < growcap c)%nat.
Proof.
  unfold growcap.
  destruct (Nat.eqb_spec c 0); [lia|].
  destruct (Nat.ltb_spec c 256); [lia|].
  pose proof (Nat.div_str_pos (c + 768) 4 ltac:(lia)). lia.
Qed.

Lemma array_of_length_pos s h :
  (0 < length (array_of s h))%nat -> h !! arr s = Some (array_of s h).
Proof.
  unfold array_of. destruct (h !! arr s); simpl; [done | lia].
Qed.

Lemma array_of_insert s h a :
  (arr s < length h)%nat -> array_of s (<[arr s := a]> h) = a.
Proof.
  intros H. unfold array_of. by rewrite list_lookup_insert_eq.
Qed.

Lemma elems_in_length s h : slice_ok s h -> length (elems_in s h) = slen s.
Proof.
  intros [H1 H2]. unfold elems_in. rewrite length_take. lia.
Qed.

(** Writing in place at an index within the capacity. *)
Lemma array_of_write s h i x :
  slice_ok s h -> (i < scap s)%nat ->
  array_of s (<[arr s := <[i := x]> (array_of s h)]> h)
  = <[i := x]> (array_of s h).
Proof.
  intros [H1 H2] Hi. apply array_of_insert.
  eapply lookup_lt_Some, array_of_length_pos. lia.
Qed.

(** [append] never panics; its result holds the old elements and the new
    one, on an array at least as large. *)
Lemma append_ok s x st :
  slice_ok s (heap st) ->
  exists s' st',
    append s x st = Some (s', st')
    /\ slice_ok s' (heap st')
    /\ elems_in s' (heap st') = elems_in s (heap st) ++ [x]
    /\ (scap s <= scap s')%nat
    /\ rng st' = rng st.
Proof.
  intros Hok. pose proof Hok as [H1 H2]. unfold append.
  destruct (Nat.ltb_spec (slen s) (scap s)) as [Hlt|Hge].
  - eexists _, _. split; [reflexivity|]. cbn [heap rng scap].
    pose proof (array_of_write s (heap st) (slen s) x Hok Hlt) as Hw.
    change (array_of (Slice (arr s) (S (slen s)) (scap s))) with (array_of s).
    split_and!; [| |lia|done].
    + split; cbn [slen scap]; [lia|].
      change (array_of (Slice (arr s) (S (slen s)) (scap s))) with (array_of s).
      rewrite Hw. by rewrite length_insert.
    + unfold elems_in. cbn [slen].
      change (array_of (Slice (arr s) (S (slen s)) (scap s))) with (array_of s).
      rewrite Hw.
      rewrite (take_S_r _ _ x).
      * by rewrite take_insert_ge by lia.
      * apply list_lookup_insert_eq. lia.
  - pose proof (growcap_gt (scap s)) as Hg.
    pose proof (elems_in_length s (heap st) Hok) as Hl.
    eexists _, _. split; [reflexivity|]. simpl.
    assert (array_of (Slice (length (heap st)) (S (slen s)) (growcap (scap s)))
              (heap st ++ [elems_in s (heap st) ++ x :: replicate (growcap (scap s) - S (slen s)) 0])
            = elems_in s (heap st) ++ x :: replicate (growcap (scap s) - S (slen s)) 0) as Ha.
    { unfold array_of. simpl arr.
      rewrite lookup_app_r by lia. by rewrite Nat.sub_diag. }
    split_and!; [| |lia|done].
    + split; simpl; [lia|]. rewrite Ha.
      rewrite length_app. simpl. rewrite length_replicate. lia.
    + unfold elems_in at 1. rewrite Ha. simpl slen.
      rewrite (cons_middle x), app_assoc.
      apply take_app_length'. rewrite length_app. simpl. lia.
Qed.

(** *** [clean] *)

Lemma cpf_values_cons ch raw :
  Ref.cpf_values (ch :: raw) =
    if Ref.is_digit ch then (code ch - 48) :: Ref.cpf_values raw
    else Ref.cpf_values raw.
Proof.
  unfold Ref.cpf_values, Ref.cpf_digits. rewrite filter_cons.
  destruct (decide _) as [E|E].
  - by rewrite E.
  - apply not_true_is_false in E. by rewrite E.
Qed.

Lemma cpf_values_length raw :
  length (Ref.cpf_values raw) = length (Ref.cpf_digits raw).
Proof. unfold Ref.cpf_values. by rewrite length_fmap. Qed.

Lemma digit_of_byte ch :
  Ref.is_digit ch = true -> code (byte (code ch - code "0")) = code ch - 48.
Proof.
  unfold Ref.is_digit. intros H. change (code "0") with 48.
  apply code_byte. lia.
Qed.

Lemma cpf_values_digits raw : Forall is_digit_value (Ref.cpf_values raw).
Proof.
  induction raw as [|ch raw IH]; [constructor|].
  rewrite cpf_values_cons. destruct (Ref.is_digit ch) eqn:E; [|done].
  constructor; [|done]. unfold Ref.is_digit in E. red. lia.
Qed.

Lemma clean_loop_ok todo : forall c st,
  slice_ok (CPF.cpfNumber c) (heap st) ->
  exists c' st',
    CPF.clean_loop c todo st = Some (c', st')
    /\ slice_ok (CPF.cpfNumber c') (heap st')
    /\ elems_in (CPF.cpfNumber c') (heap st')
       = elems_in (CPF.cpfNumber c) (heap st) ++ Ref.cpf_values todo
    /\ (scap (CPF.cpfNumber c) <= scap (CPF.cpfNumber c'))%nat
    /\ rng st' = rng st.
Proof.
  induction todo as [|ch todo IH]; intros c st Hok.
  - exists c, st. simpl. rewrite app_nil_r. by split_and!.
  - cbn [CPF.clean_loop]. rewrite cpf_values_cons.
    change ((code "0" <=? code ch) && (code ch <=? code "9"))
      with (Ref.is_digit ch).
    destruct (Ref.is_digit ch) eqn:E.
    + rewrite digit_of_byte by done. unfold bind.
      destruct (append_ok (CPF.cpfNumber c) (code ch - 48) st Hok)
        as (s' & st1 & -> & Hok1 & Hel1 & Hcap1 & Hr1).
      destruct (IH (CPF.Build s') st1 Hok1)
        as (c' & st' & -> & Hok' & Hel' & Hcap' & Hr').
      exists c', st'. simpl in *.
      split_and!; [done|done| |lia|congruence].
      rewrite Hel', Hel1. by rewrite <- app_assoc.
    + by apply IH.
Qed.

(** [clean] never panics: it leaves in [cpfNumber] the values of the
    decimal digits of the input, all of them and in order, on an array
    with room for 11. *)
Lemma clean_ok c value st :
  slice_ok (CPF.cpfNumber c) (heap st) ->
  exists c' st',
    CPF.clean c value st = Some (c', st')
    /\ slice_ok (CPF.cpfNumber c') (heap st')
    /\ elems_in (CPF.cpfNumber c') (heap st') = Ref.cpf_values value
    /\ (11 <= scap (CPF.cpfNumber c'))%nat
    /\ rng st' = rng st.
Proof.
  intros [H1 H2]. unfold CPF.clean, bind at 1, reslice.
  rewrite (proj2 (Nat.ltb_ge _ _)) by lia. unfold ret at 1, bind at 1.
  cbn [scap arr].
  destruct (Z.ltb_spec (Z.of_nat (scap (CPF.cpfNumber c))) CpfLength) as [Hlt|Hge].
  - unfold make. change (Z.to_nat CpfLength) with 11%nat.
    simpl. unfold bind, alloc, ret.
    destruct (clean_loop_ok value
                (CPF.Build (Slice (length (heap st)) 0 11))
                (State (heap st ++ [replicate 11 0]) (rng st)))
      as (c' & st' & Hrun & Hok' & Hel' & Hcap' & Hr').
    { split; simpl; [lia|]. unfold array_of. simpl.
      rewrite lookup_app_r by lia. rewrite Nat.sub_diag. simpl. lia. }
    exists c', st'. simpl in *. split_and!; [done|done| |lia|done].
    by rewrite Hel'.
  - unfold ret.
    destruct (clean_loop_ok value
                (CPF.Build (Slice (arr (CPF.cpfNumber c)) 0 (scap (CPF.cpfNumber c))))
                st)
      as (c' & st' & Hrun & Hok' & Hel' & Hcap' & Hr').
    { split; simpl; [lia|]. done. }
    exists c', st'. simpl in *. unfold CpfLength in Hge.
    split_and!; [done|done| |lia|done].
    by rewrite Hel'.
Qed.

(** *** The degenerate CPFs *)

Lemma notAccepted_degenerate ds : ds ∈ notAcceptedCPF <-> Ref.degenerate ds.
Proof.
  split.
  - intros H. vm_compute in H.
    repeat (apply elem_of_cons in H as [->|H];
            [eexists; split; [|reflexivity]; reflexivity|]).
    by apply elem_of_nil in H.
  - intros (d & Hd & ->).
    destruct d as [[] [] [] [] [] [] [] []]; try discriminate Hd;
      apply (bool_decide_unpack _); vm_compute; exact I.
Qed.

Lemma isAccepted_ref value :
  CPF.isAccepted value = true <-> ~ Ref.degenerate (Ref.cpf_digits value).
Proof.
  unfold CPF.isAccepted, Contains. rewrite cpf_digits_ok.
  rewrite negb_true_iff, bool_decide_eq_false.
  by rewrite notAccepted_degenerate.
Qed.

(** *** Reading a slice *)

Lemma index_ok s i v st :
  slice_ok s (heap st) -> elems_in s (heap st) !! i = Some v ->
  index s i st = Some (v, st).
Proof.
  intros Hok Hv. unfold index.
  pose proof (lookup_lt_Some _ _ _ Hv) as Hi.
  rewrite elems_in_length in Hi by done.
  rewrite (proj2 (Nat.ltb_lt _ _)) by lia.
  unfold elems_in in Hv. apply lookup_take_Some in Hv as [Hv _].
  by rewrite Hv.
Qed.

(** [append] with room left writes at index [len(s)] of the array of
    [s]. *)
Lemma append_in_place s x st :
  (slen s < scap s)%nat ->
  append s x st =
    Some (Slice (arr s) (S (slen s)) (scap s),
          State (<[arr s := <[slen s := x]> (array_of s (heap st))]> (heap st))
                (rng st)).
Proof.
  intros H. unfold append. by rewrite (proj2 (Nat.ltb_lt _ _)).
Qed.

(** *** Running a computation step by step *)

Lemma bind_run {A B} (m : M A) (k : A -> M B) st a st1 :
  m st = Some (a, st1) -> bind m k st = k a st1.
Proof. intros H. unfold bind. by rewrite H. Qed.

Lemma reslice_run s hi st :
  (hi <= scap s)%nat -> reslice s hi st = Some (Slice (arr s) hi (scap s), st).
Proof.
  intros H. unfold reslice. by rewrite (proj2 (Nat.ltb_ge _ _)).
Qed.

Lemma calculateFirstDigit_ok value st :
  Forall is_digit_value (elems_in value (heap st)) ->
  length (elems_in value (heap st)) = 9%nat ->
  CPF.calculateFirstDigit value st
  = Some (Ref.cpf_first_digit (elems_in value (heap st)), st).
Proof.
  intros Hall Hlen.
  unfold CPF.calculateFirstDigit, bind, elems, ret.
  rewrite calculate_digit_ok; [reflexivity | assumption |].
  unfold len. rewrite Hlen. lia.
Qed.

Lemma calculateSecondDigit_ok value st :
  Forall is_digit_value (elems_in value (heap st)) ->
  length (elems_in value (heap st)) = 10%nat ->
  CPF.calculateSecondDigit value st
  = Some (Ref.cpf_second_digit (elems_in value (heap st)), st).
Proof.
  intros Hall Hlen.
  unfold CPF.calculateSecondDigit, bind, elems, ret.
  rewrite calculate_digit_ok; [reflexivity | assumption |].
  unfold len. rewrite Hlen. lia.
Qed.

(** *** [validate] *)

Lemma validate_short value st :
  slen value <> 11%nat -> CPF.validate value st = Some (false, st).
Proof.
  intros H. unfold CPF.validate, CpfLength.
  destruct (Z.eqb_spec (Z.of_nat (slen value)) 11); [lia|]. reflexivity.
Qed.

Lemma validate_ok value st :
  slice_ok value (heap st) ->
  slen value = 11%nat ->
  Forall is_digit_value (elems_in value (heap st)) ->
  CPF.validate value st =
    Some (validate_decides (elems_in value (heap st)),
          State (<[arr value :=
                     <[9%nat := Ref.cpf_first_digit (take 9 (elems_in value (heap st)))]>
                       (array_of value (heap st))]> (heap st))
                (rng st)).
Proof.
  intros Hok Hlen Hdig. pose proof Hok as [H1 H2].
  set (ds := elems_in value (heap st)) in *.
  set (a := array_of value (heap st)) in *.
  set (dv1 := Ref.cpf_first_digit (take 9 ds)).
  set (v9 := Slice (arr value) 9 (scap value)).
  set (v10 := Slice (arr value) 10 (scap value)).
  set (st1 := State (<[arr value := <[9%nat := dv1]> a]> (heap st)) (rng st)).
  assert (length ds = 11%nat) as Hlds
    by (unfold ds; rewrite elems_in_length; done).
  assert (elems_in v9 (heap st) = take 9 ds) as Hv9.
  { unfold ds, elems_in. rewrite Hlen. change (slen v9) with 9%nat.
    change (array_of v9) with (array_of value).
    rewrite take_take. f_equal. }
  assert (array_of value (heap st1) = <[9%nat := dv1]> a) as Ha1.
  { apply array_of_write; [done | lia]. }
  assert (elems_in v10 (heap st1) = take 9 ds ++ [dv1]) as Hv10.
  { unfold elems_in. change (slen v10) with 10%nat.
    change (array_of v10) with (array_of value). rewrite Ha1.
    rewrite (take_S_r (<[9%nat := dv1]> a) 9 dv1).
    - rewrite take_insert_ge by lia.
      rewrite <- Hv9. unfold elems_in. done.
    - apply list_lookup_insert_eq. lia. }
  assert (is_digit_value dv1) as Hdv1 by apply cpf_check_range.
  destruct (lookup_lt_is_Some_2 a 10) as [b Hb]; [lia|].
  assert (ds !! 10%nat = Some b) as Hds10.
  { unfold ds, elems_in. rewrite Hlen. fold a.
    by rewrite lookup_take_lt by lia. }
  unfold CPF.validate. rewrite Hlen.
  change (negb (Z.of_nat 11 =? CpfLength)) with false. cbv iota.
  (* value[:9] and the first check digit *)
  rewrite (bind_run _ _ st v9 st) by (apply reslice_run; lia).
  rewrite (bind_run _ _ st dv1 st).
  2:{ rewrite calculateFirstDigit_ok; rewrite Hv9; [done| |].
      - by apply Forall_take.
      - rewrite length_take. lia. }
  (* append(value[:9], dv1) finds room and writes value[9] *)
  rewrite (bind_run _ _ st v10 st1)
    by (rewrite append_in_place; [done | unfold v9; simpl; lia]).
  (* the second check digit, over the ten elements now in the array *)
  rewrite (bind_run _ _ st1
             (Ref.cpf_second_digit (take 9 ds ++ [dv1])) st1).
  2:{ rewrite calculateSecondDigit_ok; rewrite Hv10; [done| |].
      - apply Forall_app. split; [by apply Forall_take | by constructor].
      - rewrite length_app, length_take, Hlds. reflexivity. }
  (* value[9] is read after the write *)
  rewrite (bind_run _ _ st1 dv1 st1).
  2:{ unfold index. rewrite Hlen, Ha1. cbn [Nat.ltb Nat.leb].
      by rewrite list_lookup_insert_eq by lia. }
  rewrite Z.eqb_refl. cbn [negb].
  rewrite (bind_run _ _ st1 b st1).
  2:{ unfold index. rewrite Hlen, Ha1. cbn [Nat.ltb Nat.leb].
      rewrite list_lookup_insert_ne by lia. by rewrite Hb. }
  unfold ret. f_equal. f_equal.
  unfold validate_decides. rewrite Hds10. fold dv1.
  destruct (Z.eqb_spec (Ref.cpf_second_digit (take 9 ds ++ [dv1])) b)
    as [->|Hne].
  - by rewrite bool_decide_eq_true_2.
  - rewrite bool_decide_eq_false_2; [done|]. congruence.
Qed.

(** *** [Validate] *)

(** [Validate] never panics, whatever the receiver holds; it accepts
    exactly the inputs that are not degenerate, have 11 digits, and pass
    [validate]. *)
Lemma Validate_ok c value st :
  slice_ok (CPF.cpfNumber c) (heap st) ->
  exists b c' st',
    CPF.Validate c value st = Some ((b, c'), st')
    /\ slice_ok (CPF.cpfNumber c') (heap st')
    /\ rng st' = rng st
    /\ (b = true <->
        ~ Ref.degenerate (Ref.cpf_digits value)
        /\ length (Ref.cpf_values value) = 11%nat
        /\ validate_decides (Ref.cpf_values value) = true).
Proof.
  intros Hok.
  destruct (clean_ok c value st Hok) as (c1 & st1 & Hrun & Hok1 & Hel & Hcap & Hr).
  unfold CPF.Validate. rewrite (bind_run _ _ _ _ _ Hrun).
  pose proof (isAccepted_ref value) as Hacc.
  pose proof (elems_in_length _ _ Hok1) as Hlen. rewrite Hel in Hlen.
  destruct (CPF.isAccepted value) eqn:Ea; cbn [negb].
  2:{ exists false, c1, st1. split_and!; [done..|].
      split; [done|]. intros (Hd & _). apply Hacc in Hd. done. }
  unfold CPF.length, CpfLength.
  destruct (Z.eqb_spec (Z.of_nat (slen (CPF.cpfNumber c1))) 11) as [E|E];
    cbn [negb].
  2:{ exists false, c1, st1. split_and!; [done..|].
      split; [done|]. intros (_ & Hl & _). lia. }
  assert (slen (CPF.cpfNumber c1) = 11%nat) as E' by lia.
  rewrite (bind_run _ _ _ _ _ (validate_ok _ _ Hok1 E'
             ltac:(rewrite Hel; apply cpf_values_digits))).
  rewrite Hel. eexists _, c1, _. split; [reflexivity|].
  split_and!.
  - destruct Hok1 as [H1 H2]. split; [done|]. cbn [heap].
    rewrite array_of_write by (done || lia).
    by rewrite length_insert.
  - done.
  - split; [|tauto]. intros Hv. split_and!; [by apply Hacc | lia | done].
Qed.

(** *** The verification of the first release *)

Lemma legacy_sum_loop_ok w values st n : forall (i : nat) sum,
  slice_ok values (heap st) ->
  (i + n <= slen values)%nat -> (i + n <= 1000)%nat ->
  Legacy.sum_loop w values i n sum st
  = Some (CPF.weighted_loop w (take n (drop i (elems_in values (heap st))))
            (Z.of_nat i) sum, st).
Proof.
  induction n as [|n IH]; intros i sum Hok Hin Hbig.
  - reflexivity.
  - cbn [Legacy.sum_loop].
    destruct (lookup_lt_is_Some_2 (elems_in values (heap st)) i) as [v Hv].
    { rewrite elems_in_length by done. lia. }
    rewrite (bind_run _ _ _ _ _ (index_ok _ _ _ _ Hok Hv)).
    rewrite IH by (done || lia).
    rewrite (drop_S _ _ _ Hv). cbn [take CPF.weighted_loop].
    rewrite (add_small (Z.of_nat i) 1) by lia.
    do 3 f_equal. lia.
Qed.

(** The digit functions of the first release read the first 9 and the
    first 10 elements of a slice that may hold more. *)
Lemma legacy_calculateFirstDigit_ok values st :
  slice_ok values (heap st) ->
  Forall is_digit_value (elems_in values (heap st)) ->
  (9 <= slen values)%nat ->
  Legacy.calculateFirstDigit values st
  = Some (Ref.cpf_first_digit (take 9 (elems_in values (heap st))), st).
Proof.
  intros Hok Hdig Hlen. unfold Legacy.calculateFirstDigit.
  rewrite (bind_run _ _ _ _ _
             (legacy_sum_loop_ok 10 values st 9 0 0 Hok ltac:(lia) ltac:(lia))).
  unfold ret. rewrite drop_0. change Legacy.clamp with CPF.clamp.
  rewrite calculate_digit_ok; [done | by apply Forall_take |].
  unfold len. rewrite length_take. lia.
Qed.

Lemma legacy_calculateSecondDigit_ok values st :
  slice_ok values (heap st) ->
  Forall is_digit_value (elems_in values (heap st)) ->
  (10 <= slen values)%nat ->
  Legacy.calculateSecondDigit values st
  = Some (Ref.cpf_second_digit (take 10 (elems_in values (heap st))), st).
Proof.
  intros Hok Hdig Hlen. unfold Legacy.calculateSecondDigit.
  rewrite (bind_run _ _ _ _ _
             (legacy_sum_loop_ok 11 values st 10 0 0 Hok ltac:(lia) ltac:(lia))).
  unfold ret. rewrite drop_0. change Legacy.clamp with CPF.clamp.
  rewrite calculate_digit_ok; [done | by apply Forall_take |].
  unfold len. rewrite length_take. lia.
Qed.

(** The verification of the first release never panics on 11 digits and
    compares both check digits as given. *)
Lemma legacy_validate_ok values st :
  slice_ok values (heap st) ->
  slen values = 11%nat ->
  Forall is_digit_value (elems_in values (heap st)) ->
  Legacy.validate values st
  = Some (legacy_decides (elems_in values (heap st)), st).
Proof.
  intros Hok Hlen Hdig.
  pose proof (legacy_calculateFirstDigit_ok values st Hok Hdig ltac:(lia)) as H1.
  pose proof (legacy_calculateSecondDigit_ok values st Hok Hdig ltac:(lia)) as H2.
  set (ds := elems_in values (heap st)) in *.
  assert (length ds = 11%nat) as Hlds
    by (unfold ds; rewrite elems_in_length; done).
  destruct (lookup_lt_is_Some_2 ds 9) as [a Ha]; [lia|].
  destruct (lookup_lt_is_Some_2 ds 10) as [b Hb]; [lia|].
  unfold Legacy.validate. rewrite Hlen.
  change (negb (Z.of_nat 11 =? 11)) with false. cbv iota.
  rewrite (bind_run _ _ _ _ _ H1).
  rewrite (bind_run _ _ _ _ _ (index_ok _ _ _ _ Hok Ha)).
  unfold legacy_decides. rewrite Ha, Hb.
  destruct (Z.eqb_spec (Ref.cpf_first_digit (take 9 ds)) a) as [->|Hne];
    cbn [negb].
  2:{ rewrite bool_decide_eq_false_2; [done | congruence]. }
  rewrite bool_decide_eq_true_2 by done.
  rewrite (bind_run _ _ _ _ _ H2).
  rewrite (bind_run _ _ _ _ _ (index_ok _ _ _ _ Hok Hb)).
  unfold ret. do 2 f_equal. cbn [andb].
  destruct (Z.eqb_spec (Ref.cpf_second_digit (take 10 ds)) b) as [->|Hne].
  - by rewrite bool_decide_eq_true_2.
  - rewrite bool_decide_eq_false_2; [done | congruence].
Qed.

(** Whatever the first release accepts, the current [validate] accepts:
    with the first check digit right, the write of [append] changes
    nothing. *)
Lemma legacy_accepts_validate_accepts ds :
  length ds = 11%nat ->
  legacy_decides ds = true -> validate_decides ds = true.
Proof.
  intros Hlen. unfold legacy_decides, validate_decides.
  rewrite andb_true_iff, !bool_decide_eq_true.
  intros [H9 H10]. rewrite H10. do 2 f_equal.
  rewrite (take_S_r ds 9 _ H9). reflexivity.
Qed.

(** A raw CPF that is valid in the sense of the specification is accepted
    by [Validate]; the converse is what fails. *)
Lemma Validate_accepts_valid c value st :
  slice_ok (CPF.cpfNumber c) (heap st) ->
  Ref.cpf_valid value ->
  exists c' st', CPF.Validate c value st = Some ((true, c'), st').
Proof.
  intros Hok (Hnd & Hlen & H9 & H10).
  destruct (Validate_ok c value st Hok) as (b & c' & st' & Hrun & _ & _ & Hb).
  exists c', st'. rewrite Hrun. do 3 f_equal. apply Hb.
  split_and!; [done..|].
  apply legacy_accepts_validate_accepts; [done|].
  unfold legacy_decides. by rewrite !bool_decide_eq_true_2.
Qed.

(** C3. The check-digit functions are the reference ones. On a slice that
    holds a 9-digit body [calculateFirstDigit] returns the digit obtained
    with the weights 10 - i, the sum times 10, modulo 11, and 10 or 11
    clamped to 0; on a slice that holds 10 digits [calculateSecondDigit]
    returns the same with the weights 11 - i. The functions of the first
    release return the same digits for the first 9 and the first 10
    elements of a slice that holds at least as many. None of them touches
    the store. *)
Theorem cpf_check_digits_reference (value : slice) (st : state) :
  slice_ok value (heap st) ->
  Forall is_digit_value (elems_in value (heap st)) ->
  let ds := elems_in value (heap st) in
  (length ds = 9%nat ->
   CPF.calculateFirstDigit value st = Some (Ref.cpf_first_digit ds, st))
  /\ (length ds = 10%nat ->
      CPF.calculateSecondDigit value st = Some (Ref.cpf_second_digit ds, st))
  /\ ((9 <= length ds)%nat ->
      Legacy.calculateFirstDigit value st
      = Some (Ref.cpf_first_digit (take 9 ds), st))
  /\ ((10 <= length ds)%nat ->
      Legacy.calculateSecondDigit value st
      = Some (Ref.cpf_second_digit (take 10 ds), st)).
Proof.
  intros Hok Hall ds.
  pose proof (elems_in_length value (heap st) Hok) as Hl. fold ds in Hl.
  split_and!; intros Hlen.
  - by apply calculateFirstDigit_ok.
  - by apply calculateSecondDigit_ok.
  - apply legacy_calculateFirstDigit_ok; [done..|lia].
  - apply legacy_calculateSecondDigit_ok; [done..|lia].
Qed.

Lemma cpf_check_digits_reference_witness :
  CPF.calculateFirstDigit (Slice 0 9 11) sample_store
  = Some (Ref.cpf_first_digit [1; 2; 3; 4; 5; 6; 7; 8; 9], sample_store)
  /\ CPF.calculateSecondDigit (Slice 0 10 11) sample_store
     = Some (Ref.cpf_second_digit [1; 2; 3; 4; 5; 6; 7; 8; 9; 0], sample_store)
  /\ Legacy.calculateFirstDigit (Slice 0 11 11) sample_store
     = Some (Ref.cpf_first_digit [1; 2; 3; 4; 5; 6; 7; 8; 9], sample_store)
  /\ Legacy.calculateSecondDigit (Slice 0 11 11) sample_store
     = Some (Ref.cpf_second_digit [1; 2; 3; 4; 5; 6; 7; 8; 9; 0], sample_store).
Proof.
  assert (forall n, (n <= 11)%nat -> slice_ok (Slice 0 n 11) (heap sample_store))
    as Hok by (intros n Hn; split; simpl; lia).
  assert (forall n, Forall is_digit_value (elems_in (Slice 0 n 11) (heap sample_store)))
    as Hdig.
  { intros n. apply Forall_take. repeat constructor; unfold is_digit_value; lia. }
  split_and!.
  - apply (proj1 (cpf_check_digits_reference (Slice 0 9 11) sample_store
                    (Hok 9%nat ltac:(lia)) (Hdig 9%nat))).
    reflexivity.
  - apply (proj1 (proj2 (cpf_check_digits_reference (Slice 0 10 11) sample_store
                           (Hok 10%nat ltac:(lia)) (Hdig 10%nat)))).
    reflexivity.
  - apply (proj1 (proj2 (proj2 (cpf_check_digits_reference (Slice 0 11 11)
                                  sample_store (Hok 11%nat ltac:(lia)) (Hdig 11%nat))))).
    simpl. lia.
  - apply (proj2 (proj2 (proj2 (cpf_check_digits_reference (Slice 0 11 11)
                                  sample_store (Hok 11%nat ltac:(lia)) (Hdig 11%nat))))).
    simpl. lia.
Defined.

(** C1. [Validate] accepts more than the inputs that are not degenerate,
    have 11 digits and carry both check digits as recomputed from the
    digits before them. On 123.456.789-19 (not degenerate, 11 digits) the
    first check digit recomputed from the first 9 digits is 0 where the
    digit given at index 9 is 1, and the second check digit recomputed
    from the first 10 given digits is 7 where the digit given at index 10
    is 9; yet [Validate] returns true, because [validate] overwrites
    index 9 with the recomputed digit before it compares. *)
Theorem Validate_accepts_wrong_first_check_digit (r : nat -> nat) :
  (fun x => x.1.1)
    <$> CPF.Validate CPF.NewCPF (str "123.456.789-19") (empty_store r)
  = Some true
  /\ Ref.cpf_values (str "123.456.789-19") = [1; 2; 3; 4; 5; 6; 7; 8; 9; 1; 9]
  /\ Ref.cpf_first_digit [1; 2; 3; 4; 5; 6; 7; 8; 9] = 0
  /\ Ref.cpf_second_digit [1; 2; 3; 4; 5; 6; 7; 8; 9; 1] = 7
  /\ ~ Ref.cpf_valid (str "123.456.789-19").
Proof.
  split_and!; [reflexivity..|].
  intros (_ & _ & H9 & _). vm_compute in H9. discriminate H9.
Qed.

(** C10. The two verifications disagree: on the slice that [clean] builds
    from 12345678919, of length and capacity 11, the one of the first
    release returns false (the first check digit is 0, not 1) and the
    current one returns true, after writing 0 over the 1 at index 9. *)
Theorem validate_differs_from_first_release (r : nat -> nat) :
  CPF.clean CPF.NewCPF (str "12345678919") (empty_store r)
  = Some (CPF.Build (Slice 0 11 11),
          State [[1; 2; 3; 4; 5; 6; 7; 8; 9; 1; 9]] r)
  /\ Legacy.validate (Slice 0 11 11)
       (State [[1; 2; 3; 4; 5; 6; 7; 8; 9; 1; 9]] r)
     = Some (false, State [[1; 2; 3; 4; 5; 6; 7; 8; 9; 1; 9]] r)
  /\ CPF.validate (Slice 0 11 11)
       (State [[1; 2; 3; 4; 5; 6; 7; 8; 9; 1; 9]] r)
     = Some (true, State [[1; 2; 3; 4; 5; 6; 7; 8; 9; 0; 9]] r).
Proof. split_and!; reflexivity. Qed.

(** *** [Format] *)

Lemma cpf_digits_are_digits raw :
  Forall (fun c => Ref.is_digit c = true) (Ref.cpf_digits raw).
Proof.
  unfold Ref.cpf_digits. apply Forall_forall. intros c Hc.
  by apply list_elem_of_filter in Hc as [Hc _].
Qed.

Lemma digit_char_back c :
  Ref.is_digit c = true -> byte (add (code "0") (code c - 48)) = c.
Proof.
  intros H. pose proof (code_range c). change (code "0") with 48.
  rewrite add_small by lia.
  replace (48 + (code c - 48)) with (code c) by lia. apply byte_code.
Qed.

Lemma put_digit_ok value i k out c st :
  slice_ok value (heap st) ->
  elems_in value (heap st) !! i = Some (code c - 48) ->
  Ref.is_digit c = true ->
  CPF.put_digit value i k out st = Some (<[k := c]> out, st).
Proof.
  intros Hok Hel Hc. unfold CPF.put_digit.
  rewrite (bind_run _ _ _ _ _ (index_ok _ _ _ _ Hok Hel)).
  unfold ret. by rewrite digit_char_back.
Qed.

Lemma maskCPF_ok value ds st :
  slice_ok value (heap st) ->
  elems_in value (heap st) = (fun c => code c - 48) <$> ds ->
  Forall (fun c => Ref.is_digit c = true) ds ->
  length ds = 11%nat ->
  CPF.maskCPF value st = Some (Ref.cpf_render ds, st).
Proof.
  intros Hok Hel Hdig Hlen.
  do 11 (destruct ds as [|? ds]; [discriminate Hlen|]).
  destruct ds; [|discriminate Hlen].
  repeat match goal with
         | H : Forall _ (_ :: _) |- _ => apply Forall_cons in H as [? H]
         end.
  unfold CPF.maskCPF.
  do 11 (erewrite bind_run;
         [| apply put_digit_ok; [exact Hok | rewrite Hel; reflexivity | assumption]]).
  reflexivity.
Qed.

Lemma cpf_render_length ds : length ds = 11%nat -> length (Ref.cpf_render ds) = 14%nat.
Proof.
  intros Hlen.
  do 11 (destruct ds as [|? ds]; [discriminate Hlen|]).
  destruct ds; [|discriminate Hlen]. reflexivity.
Qed.

Lemma cpf_Format_ok (c : CPF.t) (value : list ascii) (st : state) :
  slice_ok (CPF.cpfNumber c) (heap st) ->
  exists r c' st',
    CPF.Format c value st = Some ((r, c'), st')
    /\ (is_err r = true <->
        Ref.degenerate (Ref.cpf_digits value)
        \/ length (Ref.cpf_digits value) <> 11%nat)
    /\ (is_err r = false ->
        r = Ok (Ref.cpf_render (Ref.cpf_digits value))
        /\ length (Ref.cpf_render (Ref.cpf_digits value)) = 14%nat).
Proof.
  intros Hok.
  destruct (clean_ok c value st Hok) as (c1 & st1 & Hrun & Hok1 & Hel & Hcap & Hr).
  unfold CPF.Format. rewrite (bind_run _ _ _ _ _ Hrun).
  pose proof (isAccepted_ref value) as Hacc.
  pose proof (elems_in_length _ _ Hok1) as Hlen.
  rewrite Hel, cpf_values_length in Hlen.
  destruct (CPF.isAccepted value) eqn:Ea; cbn [negb].
  2:{ eexists _, c1, st1. split; [reflexivity|]. cbn [is_err]. split; [|done].
      split; [|done]. intros _. left.
      destruct (notAccepted_degenerate (Ref.cpf_digits value)) as [Hd _].
      apply Hd. unfold CPF.isAccepted, Contains in Ea.
      rewrite cpf_digits_ok, negb_false_iff in Ea.
      by apply bool_decide_eq_true in Ea. }
  unfold CpfLength.
  destruct (Z.eqb_spec (Z.of_nat (slen (CPF.cpfNumber c1))) 11) as [E|E];
    cbn [negb].
  2:{ eexists _, c1, st1. split; [reflexivity|]. cbn [is_err]. split; [|done].
      split; [|done]. intros _. right. lia. }
  assert (length (Ref.cpf_digits value) = 11%nat) as E' by lia.
  rewrite (bind_run _ _ _ _ _
             (maskCPF_ok _ _ _ Hok1 Hel (cpf_digits_are_digits value) E')).
  eexists _, c1, st1. split; [reflexivity|]. cbn [is_err]. split.
  - split; [done|]. intros [Hd|Hl]; [|done].
    destruct Hacc as [Hacc _]. by destruct (Hacc eq_refl).
  - intros _. split; [done|]. by apply cpf_render_length.
Qed.

(** C6. [Format] never panics, whatever the receiver holds. It returns an
    error exactly when the digit-only form of the input is one of the ten
    sequences of 11 equal digits or does not have 11 digits; otherwise it
    returns the 14-character rendering XXX.XXX.XXX-XX of the 11 digits,
    whatever the check digits are. *)
Theorem CPF_Format_spec (c : CPF.t) (value : list ascii) (st : state) :
  slice_ok (CPF.cpfNumber c) (heap st) ->
  exists r c' st',
    CPF.Format c value st = Some ((r, c'), st')
    /\ (is_err r = true <->
        Ref.degenerate (Ref.cpf_digits value)
        \/ length (Ref.cpf_digits value) <> 11%nat)
    /\ (is_err r = false ->
        r = Ok (Ref.cpf_render (Ref.cpf_digits value))
        /\ length (Ref.cpf_render (Ref.cpf_digits value)) = 14%nat).
Proof. apply cpf_Format_ok. Qed.

Lemma CPF_Format_spec_witness :
  exists r c' st',
    CPF.Format CPF.NewCPF (str "12345678900") (empty_store (fun _ => 0%nat))
    = Some ((r, c'), st')
    /\ (is_err r = true <->
        Ref.degenerate (Ref.cpf_digits (str "12345678900"))
        \/ length (Ref.cpf_digits (str "12345678900")) <> 11%nat)
    /\ (is_err r = false ->
        r = Ok (Ref.cpf_render (Ref.cpf_digits (str "12345678900")))
        /\ length (Ref.cpf_render (Ref.cpf_digits (str "12345678900"))) = 14%nat).
Proof.
  apply (CPF_Format_spec CPF.NewCPF (str "12345678900")
           (empty_store (fun _ => 0%nat))).
  split; simpl; lia.
Defined.

(** A sequence of 11 digits whose check digits are wrong is formatted all
    the same, and is not valid. *)
Example Format_without_check_digits (r : nat -> nat) :
  (fun x => x.1.1)
    <$> CPF.Format CPF.NewCPF (str "12345678900") (empty_store r)
  = Some (Ok (str "123.456.789-00"))
  /\ (fun x => x.1.1)
       <$> CPF.Validate CPF.NewCPF (str "12345678900") (empty_store r)
     = Some false.
Proof. split; reflexivity. Qed.

(** *** [CheckOrigin] *)

Lemma region_nonempty d : is_digit_value d -> Ref.region d <> [].
Proof.
  intros Hd. red in Hd.
  assert (d = 0 \/ d = 1 \/ d = 2 \/ d = 3 \/ d = 4 \/ d = 5 \/ d = 6
          \/ d = 7 \/ d = 8 \/ d = 9) as H by lia.
  repeat destruct H as [->|H]; try subst d; discriminate.
Qed.

Lemma region_injective d1 d2 :
  is_digit_value d1 -> is_digit_value d2 ->
  Ref.region d1 = Ref.region d2 -> d1 = d2.
Proof.
  intros H1 H2. red in H1, H2.
  assert (d1 = 0 \/ d1 = 1 \/ d1 = 2 \/ d1 = 3 \/ d1 = 4 \/ d1 = 5 \/ d1 = 6
          \/ d1 = 7 \/ d1 = 8 \/ d1 = 9) as Hd1 by lia.
  assert (d2 = 0 \/ d2 = 1 \/ d2 = 2 \/ d2 = 3 \/ d2 = 4 \/ d2 = 5 \/ d2 = 6
          \/ d2 = 7 \/ d2 = 8 \/ d2 = 9) as Hd2 by lia.
  repeat destruct Hd1 as [->|Hd1]; try subst d1;
    repeat destruct Hd2 as [->|Hd2]; try subst d2;
    first [reflexivity | intros H; vm_compute in H; discriminate H].
Qed.

(** C9. [CheckOrigin] never panics, whatever the receiver holds. It
    returns the empty string exactly when the input has fewer than 9
    digits; with 9 digits or more it returns the label of the digit at
    index 8, whatever the other digits are. The ten labels are non-empty
    and pairwise distinct. *)
Theorem CheckOrigin_spec (c : CPF.t) (value : list ascii) (st : state) :
  slice_ok (CPF.cpfNumber c) (heap st) ->
  (exists label c' st',
     CPF.CheckOrigin c value st = Some ((label, c'), st')
     /\ (label = [] <-> (length (Ref.cpf_digits value) < 9)%nat)
     /\ (forall d, Ref.cpf_values value !! 8%nat = Some d ->
                   is_digit_value d /\ label = Ref.region d))
  /\ (forall d, is_digit_value d -> Ref.region d <> [])
  /\ (forall d1 d2, is_digit_value d1 -> is_digit_value d2 ->
                    Ref.region d1 = Ref.region d2 -> d1 = d2).
Proof.
  intros Hok. split; [|split; [apply region_nonempty | apply region_injective]].
  destruct (clean_ok c value st Hok) as (c1 & st1 & Hrun & Hok1 & Hel & Hcap & Hr).
  unfold CPF.CheckOrigin. rewrite (bind_run _ _ _ _ _ Hrun).
  pose proof (elems_in_length _ _ Hok1) as Hlen.
  rewrite Hel, cpf_values_length in Hlen.
  destruct (Nat.ltb_spec (slen (CPF.cpfNumber c1)) 9) as [Hlt|Hge].
  - eexists _, c1, st1. split; [reflexivity|]. split.
    + split; [lia | done].
    + intros d Hd. apply lookup_lt_Some in Hd.
      rewrite cpf_values_length in Hd. lia.
  - destruct (lookup_lt_is_Some_2 (Ref.cpf_values value) 8) as [d Hd].
    { rewrite cpf_values_length. lia. }
    assert (is_digit_value d) as Hdv
      by (eapply Forall_lookup_1; [apply cpf_values_digits | exact Hd]).
    rewrite <- Hel in Hd.
    rewrite (bind_run _ _ _ _ _ (index_ok _ _ _ _ Hok1 Hd)).
    rewrite Hel in Hd.
    eexists _, c1, st1. split; [reflexivity|].
    assert ((if d =? 0 then IsDigit0 else if d =? 1 then IsDigit1
             else if d =? 2 then IsDigit2 else if d =? 3 then IsDigit3
             else if d =? 4 then IsDigit4 else if d =? 5 then IsDigit5
             else if d =? 6 then IsDigit6 else if d =? 7 then IsDigit7
             else if d =? 8 then IsDigit8 else if d =? 9 then IsDigit9
             else []) = Ref.region d) as ->.
    { red in Hdv.
      assert (d = 0 \/ d = 1 \/ d = 2 \/ d = 3 \/ d = 4 \/ d = 5 \/ d = 6
              \/ d = 7 \/ d = 8 \/ d = 9) as H by lia.
      repeat destruct H as [->|H]; try subst d; reflexivity. }
    split.
    + split; [|lia]. intros Hl. by apply region_nonempty in Hl.
    + intros d' Hd'. rewrite Hd in Hd'. by injection Hd' as <-.
Qed.

Lemma CheckOrigin_spec_witness :
  exists label c' st',
    CPF.CheckOrigin CPF.NewCPF (str "123.456.788-00")
      (empty_store (fun _ => 0%nat)) = Some ((label, c'), st')
    /\ (label = [] <-> (length (Ref.cpf_digits (str "123.456.788-00")) < 9)%nat)
    /\ (forall d, Ref.cpf_values (str "123.456.788-00") !! 8%nat = Some d ->
                  is_digit_value d /\ label = Ref.region d).
Proof.
  apply (CheckOrigin_spec CPF.NewCPF (str "123.456.788-00")
           (empty_store (fun _ => 0%nat))).
  split; simpl; lia.
Defined.

(** [Format] and [CheckOrigin] leave a receiver that the next call can
    use, as [Validate] does. *)
Lemma Format_keeps_receiver c value st r c' st' :
  slice_ok (CPF.cpfNumber c) (heap st) ->
  CPF.Format c value st = Some ((r, c'), st') ->
  slice_ok (CPF.cpfNumber c') (heap st').
Proof.
  intros Hok.
  destruct (clean_ok c value st Hok) as (c1 & st1 & Hrun & Hok1 & Hel & Hcap & Hr).
  unfold CPF.Format. rewrite (bind_run _ _ _ _ _ Hrun).
  pose proof (elems_in_length _ _ Hok1) as Hlen.
  rewrite Hel, cpf_values_length in Hlen.
  destruct (CPF.isAccepted value); cbn [negb].
  2:{ unfold ret. by intros [= _ <- <-]. }
  unfold CpfLength.
  destruct (Z.eqb_spec (Z.of_nat (slen (CPF.cpfNumber c1))) 11) as [E|E];
    cbn [negb].
  2:{ unfold ret. by intros [= _ <- <-]. }
  rewrite (bind_run _ _ _ _ _
             (maskCPF_ok _ _ _ Hok1 Hel (cpf_digits_are_digits value)
                ltac:(lia))).
  unfold ret. by intros [= _ <- <-].
Qed.

Lemma CheckOrigin_keeps_receiver c value st label c' st' :
  slice_ok (CPF.cpfNumber c) (heap st) ->
  CPF.CheckOrigin c value st = Some ((label, c'), st') ->
  slice_ok (CPF.cpfNumber c') (heap st').
Proof.
  intros Hok.
  destruct (clean_ok c value st Hok) as (c1 & st1 & Hrun & Hok1 & Hel & Hcap & Hr).
  unfold CPF.CheckOrigin. rewrite (bind_run _ _ _ _ _ Hrun).
  destruct (slen (CPF.cpfNumber c1) <? 9)%nat.
  - unfold ret. by intros [= _ <- <-].
  - unfold bind, index, ret.
    destruct (8 <? slen (CPF.cpfNumber c1))%nat; [|done].
    destruct (array_of (CPF.cpfNumber c1) (heap st1) !! 8%nat); [|done].
    by intros [= _ <- <-].
Qed.

(** *** CNPJ: [Validate] and [Format] *)

Lemma cnpj_normalize_alnum raw :
  Forall (fun c => Ref.is_alnum c = true) (Ref.cnpj_normalize raw).
Proof.
  unfold Ref.cnpj_normalize. apply Forall_forall. intros c Hc.
  by apply list_elem_of_filter in Hc as [Hc _].
Qed.

Lemma Itoa_digit d : 0 <= d <= 9 -> Itoa d = [Ref.digit_char d].
Proof.
  intros Hd.
  assert (d = 0 \/ d = 1 \/ d = 2 \/ d = 3 \/ d = 4 \/ d = 5 \/ d = 6
          \/ d = 7 \/ d = 8 \/ d = 9) as H by lia.
  repeat destruct H as [->|H]; try subst d; reflexivity.
Qed.

Lemma digit_char_alnum d : 0 <= d <= 9 -> Ref.is_alnum (Ref.digit_char d) = true.
Proof.
  intros Hd.
  assert (d = 0 \/ d = 1 \/ d = 2 \/ d = 3 \/ d = 4 \/ d = 5 \/ d = 6
          \/ d = 7 \/ d = 8 \/ d = 9) as H by lia.
  repeat destruct H as [->|H]; try subst d; reflexivity.
Qed.

Lemma not_digit_test ch :
  (code ch <? code "0") || (code "9" <? code ch) = negb (Ref.is_digit ch).
Proof.
  unfold Ref.is_digit. change (code "0") with 48. change (code "9") with 57.
  destruct (Z.ltb_spec (code ch) 48), (Z.ltb_spec 57 (code ch)),
    (Z.leb_spec 48 (code ch)), (Z.leb_spec (code ch) 57); simpl; lia || reflexivity.
Qed.

(** The two check digits of a 12-character base, as the code computes
    them. *)
Lemma cnpj_check_digits_ok base :
  length base = 12%nat ->
  Forall (fun c => Ref.is_alnum c = true) base ->
  CNPJ.calculateDV base = Ok (Ref.cnpj_check_digit base)
  /\ CNPJ.calculateDV (base ++ Itoa (Ref.cnpj_check_digit base))
     = Ok (Ref.cnpj_check_digit
             (base ++ [Ref.digit_char (Ref.cnpj_check_digit base)])).
Proof.
  intros Hlen Hall.
  pose proof (cnpj_check_digit_range base) as Hr.
  split.
  - apply calculateDV_ok; [unfold len; rewrite Hlen; reflexivity | done].
  - rewrite Itoa_digit by done. apply calculateDV_ok.
    + unfold len. rewrite length_app, Hlen. reflexivity.
    + apply Forall_app. split; [done|]. constructor; [|constructor].
      by apply digit_char_alnum.
Qed.

Lemma cnpj_Validate_ok (value : list ascii) :
  CNPJ.Validate value = true <-> Ref.cnpj_valid (Ref.cnpj_normalize value).
Proof.
  unfold CNPJ.Validate, Ref.cnpj_valid. rewrite cnpj_digits_ok.
  pose proof (cnpj_normalize_alnum value) as Hall.
  set (n := Ref.cnpj_normalize value) in *.
  unfold len, CnpjLength.
  destruct (Z.eqb_spec (Z.of_nat (length n)) 14) as [E|E]; cbn [negb].
  2:{ split; [done|]. intros (Hl & _). lia. }
  assert (length n = 14%nat) as Hlen by lia.
  rewrite !not_digit_test.
  destruct (Ref.is_digit (n !!! 12%nat)) eqn:E12; cbn [negb].
  2:{ split; [done|]. by intros (_ & ? & _). }
  destruct (Ref.is_digit (n !!! 13%nat)) eqn:E13; cbn [negb].
  2:{ split; [done|]. by intros (_ & _ & ? & _). }
  rewrite !digit_of_byte by done.
  unfold substr. rewrite drop_0. change (12 - 0)%nat with 12%nat.
  destruct (cnpj_check_digits_ok (take 12 n)) as [-> ->].
  { rewrite length_take. lia. }
  { by apply Forall_take. }
  rewrite andb_true_iff, !Z.eqb_eq. tauto.
Qed.

(** C4. [Validate] returns true exactly when the normalized form of
    the input has 14 characters, its last two characters are decimal
    digits, the check digit computed over the first 12 characters is the
    character at index 12, and the check digit computed over these 12
    characters followed by the first computed check digit is the character
    at index 13. *)
Theorem CNPJ_Validate_iff (value : list ascii) :
  CNPJ.Validate value = true <-> Ref.cnpj_valid (Ref.cnpj_normalize value).
Proof. apply cnpj_Validate_ok. Qed.

Lemma cnpj_render_length n :
  length n = 14%nat -> length (Ref.cnpj_render n) = 18%nat.
Proof.
  intros Hlen.
  do 14 (destruct n as [|? n]; [discriminate Hlen|]).
  destruct n; [|discriminate Hlen]. reflexivity.
Qed.

(** C8. [Format] returns an error exactly when the normalized form of the
    input does not have 14 characters; otherwise it returns the
    18-character rendering XX.XXX.XXX/XXXX-XX of the 14 characters,
    whatever they are. *)
Theorem CNPJ_Format_spec (value : list ascii) :
  CNPJ.Format value =
    (if decide (length (Ref.cnpj_normalize value) = 14%nat)
     then Ok (Ref.cnpj_render (Ref.cnpj_normalize value))
     else Err (CNPJLength (len (Ref.cnpj_normalize value))))
  /\ (is_err (CNPJ.Format value) = true
      <-> length (Ref.cnpj_normalize value) <> 14%nat)
  /\ (length (Ref.cnpj_normalize value) = 14%nat ->
      length (Ref.cnpj_render (Ref.cnpj_normalize value)) = 18%nat).
Proof.
  assert (CNPJ.Format value =
    (if decide (length (Ref.cnpj_normalize value) = 14%nat)
     then Ok (Ref.cnpj_render (Ref.cnpj_normalize value))
     else Err (CNPJLength (len (Ref.cnpj_normalize value))))) as Heq.
  { unfold CNPJ.Format. rewrite cnpj_digits_ok.
    set (n := Ref.cnpj_normalize value).
    unfold len, CnpjLength.
    destruct (Z.eqb_spec (Z.of_nat (length n)) 14) as [E|E]; cbn [negb].
    - rewrite decide_True by lia.
      assert (length n = 14%nat) as Hlen by lia.
      do 14 (destruct n as [|? n]; [discriminate Hlen|]).
      destruct n; [|discriminate Hlen]. reflexivity.
    - rewrite decide_False by lia. reflexivity. }
  split; [exact Heq|]. split; [|apply cnpj_render_length].
  rewrite Heq. destruct (decide _) as [E|E]; cbn [is_err]; split; done.
Qed.

Lemma CNPJ_Format_spec_witness :
  length (Ref.cnpj_render (Ref.cnpj_normalize (str "12.abc.345/01de-35")))
  = 18%nat.
Proof.
  apply (proj2 (proj2 (CNPJ_Format_spec (str "12.abc.345/01de-35")))).
  reflexivity.
Defined.

(** The last two characters need not be digits, and the check digits need
    not be right. *)
Example CNPJ_Format_without_check_digits :
  CNPJ.Format (str "ab.cde.fgh/ijkl-mn") = Ok (str "AB.CDE.FGH/IJKL-MN")
  /\ CNPJ.Validate (str "ab.cde.fgh/ijkl-mn") = false
  /\ CNPJ.Format (str "12ABC34501DE99") = Ok (str "12.ABC.345/01DE-99")
  /\ CNPJ.Validate (str "12ABC34501DE99") = false
  /\ CNPJ.Format (str "12ABC34501DE35") = Ok (str "12.ABC.345/01DE-35")
  /\ CNPJ.Validate (str "12ABC34501DE35") = true.
Proof. split_and!; reflexivity. Qed.

(** *** [ValidateDocument] *)

Lemma removeAll_filter old s : removeAll old s = filter (fun c => c <> old) s.
Proof.
  induction s as [|ch s IH]; [reflexivity|].
  cbn [removeAll]. rewrite filter_cons, IH.
  destruct (Ascii.eqb_spec ch old) as [->|Hne].
  - by rewrite decide_False by (intros H; by apply H).
  - by rewrite decide_True.
Qed.

Lemma strip_separators_ok doc :
  removeAll "/" (removeAll "-" (removeAll "." doc)) = Ref.strip_separators doc.
Proof.
  rewrite !removeAll_filter. unfold Ref.strip_separators.
  induction doc as [|ch doc IH]; [reflexivity|].
  rewrite !filter_cons.
  destruct (decide (ch <> "."%char)) as [H1|H1].
  - rewrite filter_cons. destruct (decide (ch <> "-"%char)) as [H2|H2].
    + rewrite filter_cons. destruct (decide (ch <> "/"%char)) as [H3|H3].
      * rewrite decide_True by done. by rewrite IH.
      * rewrite decide_False by tauto. exact IH.
    + rewrite decide_False by tauto. exact IH.
  - rewrite decide_False by tauto. exact IH.
Qed.

(** C7. [ValidateDocument] never panics. It measures the document
    stripped of '.', '-' and '/' and then uppercased: at length 11 it
    answers "CPF" with what [CPF.Validate] says of the document as given;
    at length 14 it answers "CNPJ" with what [CNPJ.Validate] says of the
    document as given; at any other length it answers "UNKNOWN" and false,
    and leaves the store as it found it. *)
Theorem ValidateDocument_spec (ToUpper : list ascii -> list ascii)
    (doc : list ascii) (st : state) :
  let n := length (ToUpper (Ref.strip_separators doc)) in
  (n = 11%nat ->
   exists valid c' st',
     CPF.Validate CPF.NewCPF doc st = Some ((valid, c'), st')
     /\ ValidateDocument ToUpper doc st = Some ((str "CPF", valid), st'))
  /\ (n = 14%nat ->
      ValidateDocument ToUpper doc st
      = Some ((str "CNPJ", CNPJ.Validate doc), st))
  /\ (n <> 11%nat -> n <> 14%nat ->
      ValidateDocument ToUpper doc st = Some ((str "UNKNOWN", false), st)).
Proof.
  cbv zeta. unfold ValidateDocument. rewrite strip_separators_ok.
  unfold len, CpfLength, CnpjLength.
  set (n := length (ToUpper (Ref.strip_separators doc))).
  split_and!.
  - intros Hn. rewrite Hn. change (Z.of_nat 11 =? 11) with true. cbv iota.
    destruct (Validate_ok CPF.NewCPF doc st) as (b & c' & st' & Hrun & _).
    { split; simpl; lia. }
    exists b, c', st'. split; [done|].
    by rewrite (bind_run _ _ _ _ _ Hrun).
  - intros Hn. rewrite Hn. reflexivity.
  - intros H11 H14.
    destruct (Z.eqb_spec (Z.of_nat n) 11); [lia|].
    destruct (Z.eqb_spec (Z.of_nat n) 14); [lia|]. reflexivity.
Qed.

Lemma ValidateDocument_spec_witness :
  (exists valid c' st',
     CPF.Validate CPF.NewCPF (str "123.456.789-09") (empty_store (fun _ => 0%nat))
     = Some ((valid, c'), st')
     /\ ValidateDocument asciiToUpper (str "123.456.789-09")
          (empty_store (fun _ => 0%nat))
        = Some ((str "CPF", valid), st'))
  /\ ValidateDocument asciiToUpper (str "12.abc.345/01de-35")
       (empty_store (fun _ => 0%nat))
     = Some ((str "CNPJ", CNPJ.Validate (str "12.abc.345/01de-35")),
             empty_store (fun _ => 0%nat))
  /\ ValidateDocument asciiToUpper (str "12345") (empty_store (fun _ => 0%nat))
     = Some ((str "UNKNOWN", false), empty_store (fun _ => 0%nat)).
Proof.
  split_and!.
  - apply (proj1 (ValidateDocument_spec asciiToUpper (str "123.456.789-09")
                    (empty_store (fun _ => 0%nat)))).
    reflexivity.
  - apply (proj1 (proj2 (ValidateDocument_spec asciiToUpper
                           (str "12.abc.345/01de-35")
                           (empty_store (fun _ => 0%nat))))).
    reflexivity.
  - apply (proj2 (proj2 (ValidateDocument_spec asciiToUpper (str "12345")
                           (empty_store (fun _ => 0%nat))))).
    + vm_compute. lia.
    + vm_compute. lia.
Defined.

(** The known vectors of the classifier. *)
Example ValidateDocument_vectors (r : nat -> nat) :
  fst <$> ValidateDocument asciiToUpper (str "123.456.789-09") (empty_store r)
  = Some (str "CPF", true)
  /\ fst <$> ValidateDocument asciiToUpper (str "12.ABC.345/01DE-35")
               (empty_store r)
     = Some (str "CNPJ", true)
  /\ fst <$> ValidateDocument asciiToUpper (str "12345") (empty_store r)
     = Some (str "UNKNOWN", false).
Proof. split_and!; reflexivity. Qed.

(** *** The generators *)

(** What holds of the generators: a generated CNPJ always passes
    [CNPJ.Validate]; a generated CPF passes [CPF.Validate] unless it is
    degenerate. *)

Lemma Intn_run n st :
  0 < n ->
  Intn n st = Some (Z.of_nat (rng st 0%nat) mod n,
                    State (heap st) (fun k => rng st (S k))).
Proof.
  intros Hn. unfold Intn. destruct (Z.leb_spec n 0); [lia | reflexivity].
Qed.

Lemma digit_char_is_digit d : 0 <= d <= 9 -> Ref.is_digit (Ref.digit_char d) = true.
Proof.
  intros Hd. unfold Ref.is_digit, Ref.digit_char.
  rewrite code_byte by lia. lia.
Qed.

Lemma code_digit_char d : 0 <= d <= 9 -> code (Ref.digit_char d) - 48 = d.
Proof.
  intros Hd. unfold Ref.digit_char. rewrite code_byte by lia. lia.
Qed.

Lemma drawn_digit_alnum d :
  0 <= d < 10 -> Ref.is_alnum (byte (add (code "0") d)) = true.
Proof.
  intros Hd. change (code "0") with 48. rewrite add_small by lia.
  apply digit_char_alnum. lia.
Qed.

Lemma drawn_letter_alnum d :
  0 <= d < 26 -> Ref.is_alnum (byte (add (code "A") d)) = true.
Proof.
  intros Hd. change (code "A") with 65. rewrite add_small by lia.
  unfold Ref.is_alnum, Ref.is_upper. rewrite code_byte by lia.
  apply orb_true_iff. right. lia.
Qed.

Lemma take_S_insert {A} (base : list A) i c :
  (i < length base)%nat ->
  take (S i) (<[i := c]> base) = take i base ++ [c].
Proof.
  intros Hi. rewrite (take_S_r _ _ c).
  - by rewrite take_insert_ge by lia.
  - by apply list_lookup_insert_eq.
Qed.

Lemma legacy_loop_ok n : forall i base st,
  (i + n <= length base)%nat ->
  Forall (fun c => Ref.is_alnum c = true) (take i base) ->
  exists base' st',
    CNPJ.legacy_loop base i n st = Some (base', st')
    /\ length base' = length base
    /\ Forall (fun c => Ref.is_alnum c = true) (take (i + n) base')
    /\ heap st' = heap st.
Proof.
  induction n as [|n IH]; intros i base st Hin Hall.
  - exists base, st. rewrite Nat.add_0_r. by split_and!.
  - cbn [CNPJ.legacy_loop].
    rewrite (bind_run _ _ _ _ _ (Intn_run 10 st ltac:(lia))).
    set (d := Z.of_nat (rng st 0%nat) mod 10).
    assert (0 <= d < 10) as Hd by (apply Z.mod_pos_bound; lia).
    destruct (IH (S i) (<[i := byte (add (code "0") d)]> base)
                (State (heap st) (fun k => rng st (S k))))
      as (base' & st' & Hrun & Hlen & Hall' & Hh).
    { rewrite length_insert. lia. }
    { rewrite take_S_insert by lia. apply Forall_app. split; [done|].
      constructor; [by apply drawn_digit_alnum | constructor]. }
    exists base', st'. rewrite length_insert in Hlen.
    replace (i + S n)%nat with (S i + n)%nat by lia. by split_and!.
Qed.

Lemma alnum_loop_ok n : forall i base st,
  (i + n <= length base)%nat ->
  Forall (fun c => Ref.is_alnum c = true) (take i base) ->
  exists base' st',
    CNPJ.alnum_loop base i n st = Some (base', st')
    /\ length base' = length base
    /\ Forall (fun c => Ref.is_alnum c = true) (take (i + n) base')
    /\ heap st' = heap st.
Proof.
  induction n as [|n IH]; intros i base st Hin Hall.
  - exists base, st. rewrite Nat.add_0_r. by split_and!.
  - cbn [CNPJ.alnum_loop].
    rewrite (bind_run _ _ _ _ _ (Intn_run 2 st ltac:(lia))).
    set (st1 := State (heap st) (fun k => rng st (S k))).
    destruct (Z.of_nat (rng st 0%nat) mod 2 =? 0).
    + rewrite (bind_run _ _ _ _ _ (Intn_run 10 st1 ltac:(lia))).
      set (d := Z.of_nat (rng st1 0%nat) mod 10).
      assert (0 <= d < 10) as Hd by (apply Z.mod_pos_bound; lia).
      destruct (IH (S i) (<[i := byte (add (code "0") d)]> base)
                  (State (heap st1) (fun k => rng st1 (S k))))
        as (base' & st' & Hrun & Hlen & Hall' & Hh).
      { rewrite length_insert. lia. }
      { rewrite take_S_insert by lia. apply Forall_app. split; [done|].
        constructor; [by apply drawn_digit_alnum | constructor]. }
      exists base', st'. rewrite length_insert in Hlen.
      replace (i + S n)%nat with (S i + n)%nat by lia. by split_and!.
    + rewrite (bind_run _ _ _ _ _ (Intn_run 26 st1 ltac:(lia))).
      set (d := Z.of_nat (rng st1 0%nat) mod 26).
      assert (0 <= d < 26) as Hd by (apply Z.mod_pos_bound; lia).
      destruct (IH (S i) (<[i := byte (add (code "A") d)]> base)
                  (State (heap st1) (fun k => rng st1 (S k))))
        as (base' & st' & Hrun & Hlen & Hall' & Hh).
      { rewrite length_insert. lia. }
      { rewrite take_S_insert by lia. apply Forall_app. split; [done|].
        constructor; [by apply drawn_letter_alnum | constructor]. }
      exists base', st'. rewrite length_insert in Hlen.
      replace (i + S n)%nat with (S i + n)%nat by lia. by split_and!.
Qed.

Lemma to_upper_alnum c : Ref.is_alnum c = true -> Ref.to_upper c = c.
Proof.
  destruct c as [[] [] [] [] [] [] [] []]; vm_compute; congruence.
Qed.

Lemma cnpj_normalize_id s :
  Forall (fun c => Ref.is_alnum c = true) s -> Ref.cnpj_normalize s = s.
Proof.
  induction 1 as [|c s Hc Hs IH]; [reflexivity|].
  rewrite cnpj_normalize_cons, (to_upper_alnum c Hc), Hc. by rewrite IH.
Qed.

(** A 12-character base over 0-9, A-Z followed by its two check digits
    is valid. *)
Lemma base_with_check_digits_valid base :
  length base = 12%nat ->
  Forall (fun c => Ref.is_alnum c = true) base ->
  let d1 := Ref.cnpj_check_digit base in
  let d2 := Ref.cnpj_check_digit (base ++ [Ref.digit_char d1]) in
  CNPJ.Validate (base ++ [Ref.digit_char d1; Ref.digit_char d2]) = true.
Proof.
  intros Hlen Hall d1 d2.
  pose proof (cnpj_check_digit_range base) as Hr1. fold d1 in Hr1.
  pose proof (cnpj_check_digit_range (base ++ [Ref.digit_char d1])) as Hr2.
  fold d2 in Hr2.
  apply cnpj_Validate_ok. rewrite cnpj_normalize_id.
  2:{ apply Forall_app. split; [done|].
      repeat constructor; by apply digit_char_alnum. }
  assert (take 12 (base ++ [Ref.digit_char d1; Ref.digit_char d2]) = base)
    as Htake by (by apply take_app_length').
  unfold Ref.cnpj_valid. rewrite Htake.
  assert ((base ++ [Ref.digit_char d1; Ref.digit_char d2]) !!! 12%nat
          = Ref.digit_char d1) as ->.
  { apply list_lookup_total_correct.
    rewrite lookup_app_r by lia. by rewrite Hlen. }
  assert ((base ++ [Ref.digit_char d1; Ref.digit_char d2]) !!! 13%nat
          = Ref.digit_char d2) as ->.
  { apply list_lookup_total_correct.
    rewrite lookup_app_r by lia. by rewrite Hlen. }
  fold d1. fold d2. rewrite !code_digit_char by done.
  split_and!; [| by apply digit_char_is_digit.. | done | done].
  rewrite length_app, Hlen. reflexivity.
Qed.

(** [Generate] and [GenerateLegacy] never panic and never take the
    error branches, and what they return passes [Validate], whatever the
    random source yields. *)
Lemma generateDigits_valid legacy st :
  exists out st',
    CNPJ.generateDigits legacy st = Some (out, st')
    /\ length out = 14%nat
    /\ CNPJ.Validate out = true.
Proof.
  assert (exists base st',
    (if legacy then CNPJ.legacy_loop (replicate 12 zero) 0 12
     else CNPJ.alnum_loop (replicate 12 zero) 0 12) st = Some (base, st')
    /\ length base = 12%nat
    /\ Forall (fun c => Ref.is_alnum c = true) base)
    as (base & st' & Hrun & Hlen & Hall).
  { destruct legacy.
    - destruct (legacy_loop_ok 12 0 (replicate 12 zero) st)
        as (base & st' & Hrun & Hlen & Hall & _);
        [simpl; lia | constructor |].
      exists base, st'. split_and!; [done..|].
      rewrite take_ge in Hall by (rewrite Hlen; simpl; lia). done.
    - destruct (alnum_loop_ok 12 0 (replicate 12 zero) st)
        as (base & st' & Hrun & Hlen & Hall & _);
        [simpl; lia | constructor |].
      exists base, st'. split_and!; [done..|].
      rewrite take_ge in Hall by (rewrite Hlen; simpl; lia). done. }
  unfold CNPJ.generateDigits. rewrite (bind_run _ _ _ _ _ Hrun).
  destruct (cnpj_check_digits_ok base Hlen Hall) as [-> ->].
  pose proof (cnpj_check_digit_range base) as Hr1.
  pose proof (cnpj_check_digit_range
                (base ++ [Ref.digit_char (Ref.cnpj_check_digit base)])) as Hr2.
  rewrite !Itoa_digit by done.
  eexists _, st'. split; [reflexivity|]. split.
  - rewrite !length_app, Hlen. reflexivity.
  - by apply base_with_check_digits_valid.
Qed.

(** *** [CPF.Generate] *)

Lemma assign_ok s i x st :
  slice_ok s (heap st) -> (i < slen s)%nat ->
  exists st',
    assign s i x st = Some (tt, st')
    /\ array_of s (heap st') = <[i := x]> (array_of s (heap st))
    /\ rng st' = rng st.
Proof.
  intros Hok Hi. pose proof Hok as [H1 H2]. unfold assign.
  rewrite (proj2 (Nat.ltb_lt _ _)) by done.
  eexists. split; [reflexivity|]. split; [|done]. cbn [heap].
  apply array_of_write; [done | lia].
Qed.

Lemma draw_loop_ok n : forall i number st,
  slice_ok number (heap st) ->
  (i + n <= slen number)%nat ->
  Forall is_digit_value (take i (array_of number (heap st))) ->
  exists st',
    CPF.draw_loop number i n st = Some (tt, st')
    /\ slice_ok number (heap st')
    /\ Forall is_digit_value (take (i + n) (array_of number (heap st'))).
Proof.
  induction n as [|n IH]; intros i number st Hok Hin Hall.
  - exists st. rewrite Nat.add_0_r. by split_and!.
  - cbn [CPF.draw_loop].
    rewrite (bind_run _ _ _ _ _ (Intn_run 10 st ltac:(lia))).
    set (d := Z.of_nat (rng st 0%nat) mod 10).
    assert (0 <= d < 10) as Hd by (apply Z.mod_pos_bound; lia).
    set (st1 := State (heap st) (fun k => rng st (S k))).
    destruct (assign_ok number i d st1 Hok ltac:(lia)) as (st2 & Hrun & Harr & _).
    rewrite (bind_run _ _ _ _ _ Hrun).
    pose proof Hok as [H1 H2].
    destruct (IH (S i) number st2) as (st' & Hrun' & Hok' & Hall').
    { split; [done|]. rewrite Harr, length_insert. done. }
    { lia. }
    { rewrite Harr. cbn [heap st1]. rewrite take_S_insert by lia.
      apply Forall_app. split; [done|]. constructor; [red; lia | constructor]. }
    exists st'. replace (i + S n)%nat with (S i + n)%nat by lia. by split_and!.
Qed.

Lemma Itoa_digits items :
  Forall is_digit_value items ->
  concat (Itoa <$> items) = Ref.digit_char <$> items.
Proof.
  induction 1 as [|d items Hd _ IH]; [reflexivity|].
  rewrite !fmap_cons. cbn [concat]. rewrite IH, Itoa_digit by done. reflexivity.
Qed.

Lemma cpf_digits_of_digit_chars items :
  Forall is_digit_value items ->
  Ref.cpf_digits (Ref.digit_char <$> items) = Ref.digit_char <$> items.
Proof.
  induction 1 as [|d items Hd _ IH]; [reflexivity|].
  rewrite fmap_cons. unfold Ref.cpf_digits in *. rewrite filter_cons.
  rewrite decide_True by (by apply digit_char_is_digit). by rewrite IH.
Qed.

Lemma cpf_values_of_digit_chars items :
  Forall is_digit_value items ->
  Ref.cpf_values (Ref.digit_char <$> items) = items.
Proof.
  intros Hall. unfold Ref.cpf_values.
  rewrite cpf_digits_of_digit_chars by done.
  induction Hall as [|d items Hd _ IH]; [reflexivity|].
  rewrite !fmap_cons, IH, code_digit_char by done. reflexivity.
Qed.

(** [Generate] never panics; it returns 9 digits followed by their two
    check digits. *)
Lemma Generate_ok st :
  exists body st',
    CPF.Generate st = Some (Ref.digit_char <$> generated body, st')
    /\ length body = 9%nat
    /\ Forall is_digit_value body.
Proof.
  unfold CPF.Generate, literal.
  set (number := Slice (length (heap st)) 9 9).
  set (st0 := State (heap st ++ [[0; 0; 0; 0; 0; 0; 0; 0; 0]]) (rng st)).
  rewrite (bind_run _ _ st number st0) by reflexivity.
  assert (array_of number (heap st0) = [0; 0; 0; 0; 0; 0; 0; 0; 0]) as Ha0.
  { unfold array_of, number, st0. cbn [arr heap].
    rewrite lookup_app_r by lia. by rewrite Nat.sub_diag. }
  assert (slice_ok number (heap st0)) as Hok0.
  { split; [done|]. rewrite Ha0. done. }
  destruct (draw_loop_ok 9 0 number st0 Hok0 ltac:(done) ltac:(constructor))
    as (st1 & Hrun1 & Hok1 & Hall1).
  rewrite (bind_run _ _ _ _ _ Hrun1).
  set (body := elems_in number (heap st1)).
  assert (length body = 9%nat) as Hlen
    by (unfold body; by rewrite elems_in_length).
  assert (Forall is_digit_value body) as Hbody by exact Hall1.
  rewrite (bind_run _ _ _ _ _ (calculateFirstDigit_ok _ _ Hbody Hlen)).
  fold body. set (dv1 := Ref.cpf_first_digit body).
  destruct (append_ok number dv1 st1 Hok1)
    as (number2 & st2 & Hrun2 & Hok2 & Hel2 & _ & _).
  rewrite (bind_run _ _ _ _ _ Hrun2). fold body in Hel2.
  assert (is_digit_value dv1) as Hdv1 by apply cpf_check_range.
  assert (Forall is_digit_value (elems_in number2 (heap st2))) as Hall2.
  { rewrite Hel2. apply Forall_app. split; [done | by constructor]. }
  rewrite (bind_run _ _ _ _ _
             (calculateSecondDigit_ok _ _ Hall2
                ltac:(rewrite Hel2, length_app, Hlen; reflexivity))).
  rewrite Hel2. set (dv2 := Ref.cpf_second_digit (body ++ [dv1])).
  destruct (append_ok number2 dv2 st2 Hok2)
    as (number3 & st3 & Hrun3 & Hok3 & Hel3 & _ & _).
  rewrite (bind_run _ _ _ _ _ Hrun3).
  unfold bind, elems, ret. rewrite Hel3, Hel2.
  assert (is_digit_value dv2) as Hdv2 by apply cpf_check_range.
  assert ((body ++ [dv1]) ++ [dv2] = generated body) as ->
    by (unfold generated; by rewrite <- app_assoc).
  assert (Forall is_digit_value (generated body)) as Hgen.
  { unfold generated. apply Forall_app. split; [done|].
    constructor; [done|]. constructor; [done|]. constructor. }
  rewrite Itoa_digits, cpf_digits_ok, cpf_digits_of_digit_chars by done.
  exists body, st3. by split_and!.
Qed.

(** [Validate] accepts a generated CPF unless it is one of the ten
    degenerate sequences, whatever receiver and store it runs on. *)
Lemma generated_Validate body c st :
  length body = 9%nat -> Forall is_digit_value body ->
  slice_ok (CPF.cpfNumber c) (heap st) ->
  exists b c' st',
    CPF.Validate c (Ref.digit_char <$> generated body) st = Some ((b, c'), st')
    /\ (b = true <-> ~ Ref.degenerate (Ref.digit_char <$> generated body)).
Proof.
  intros Hlen Hbody Hok.
  assert (Forall is_digit_value (generated body)) as Hgen.
  { unfold generated. apply Forall_app. split; [done|].
    constructor; [apply cpf_check_range|].
    constructor; [apply cpf_check_range|]. constructor. }
  destruct (Validate_ok c (Ref.digit_char <$> generated body) st Hok)
    as (b & c' & st' & Hrun & _ & _ & Hb).
  exists b, c', st'. split; [done|]. rewrite Hb.
  rewrite cpf_digits_of_digit_chars, cpf_values_of_digit_chars by done.
  assert (length (generated body) = 11%nat) as Hl
    by (unfold generated; rewrite length_app, Hlen; reflexivity).
  assert (validate_decides (generated body) = true) as Hv.
  { assert (take 9 (generated body) = body) as Ht
      by (unfold generated; by apply take_app_length').
    unfold validate_decides. apply bool_decide_eq_true_2. rewrite Ht.
    unfold generated. rewrite lookup_app_r by lia. by rewrite Hlen. }
  tauto.
Qed.

(** A generated CPF is degenerate exactly when the nine draws are equal:
    the two check digits of nine equal digits are that digit again. *)
Lemma equal_draws_degenerate d :
  is_digit_value d -> generated (replicate 9 d) = replicate 11 d.
Proof.
  intros Hd. red in Hd.
  assert (d = 0 \/ d = 1 \/ d = 2 \/ d = 3 \/ d = 4 \/ d = 5 \/ d = 6
          \/ d = 7 \/ d = 8 \/ d = 9) as H by lia.
  repeat destruct H as [->|H]; try subst d; reflexivity.
Qed.

Lemma cpf_digits_of_render ds :
  length ds = 11%nat -> Forall (fun c => Ref.is_digit c = true) ds ->
  Ref.cpf_digits (Ref.cpf_render ds) = ds.
Proof.
  intros Hlen Hall.
  do 11 (destruct ds as [|? ds]; [discriminate Hlen|]).
  destruct ds; [|discriminate Hlen].
  repeat match goal with
         | H : Forall _ (_ :: _) |- _ => apply Forall_cons in H as [? H]
         end.
  unfold Ref.cpf_render, Ref.cpf_digits. cbn [take drop app str list_ascii_of_string].
  repeat (rewrite filter_cons;
          first [rewrite decide_True by assumption
                | rewrite decide_False by (vm_compute; congruence)]).
  reflexivity.
Qed.

(** The round trip of a generated CPF that is not degenerate: [Validate]
    accepts it, [Format] renders it, and [Validate] accepts the
    rendering. *)
Lemma generated_round_trip body c st :
  length body = 9%nat -> Forall is_digit_value body ->
  ~ Ref.degenerate (Ref.digit_char <$> generated body) ->
  slice_ok (CPF.cpfNumber c) (heap st) ->
  let out := Ref.digit_char <$> generated body in
  (exists c' st', CPF.Validate c out st = Some ((true, c'), st'))
  /\ (exists c' st',
        CPF.Format c out st = Some ((Ok (Ref.cpf_render out), c'), st'))
  /\ (exists c' st',
        CPF.Validate c (Ref.cpf_render out) st = Some ((true, c'), st')).
Proof.
  intros Hlen Hbody Hnd Hok out.
  assert (Forall is_digit_value (generated body)) as Hgen.
  { unfold generated. apply Forall_app. split; [done|].
    constructor; [apply cpf_check_range|].
    constructor; [apply cpf_check_range|]. constructor. }
  assert (Ref.cpf_digits out = out) as Hd
    by (by apply cpf_digits_of_digit_chars).
  assert (length out = 11%nat) as Hl.
  { unfold out, generated. rewrite length_fmap, length_app, Hlen. reflexivity. }
  assert (Forall (fun ch => Ref.is_digit ch = true) out) as Hdig
    by (rewrite <- Hd; apply cpf_digits_are_digits).
  assert (Ref.cpf_digits (Ref.cpf_render out) = out) as Hr
    by (by apply cpf_digits_of_render).
  destruct (generated_Validate body c st Hlen Hbody Hok)
    as (b & c1 & st1 & Hrun1 & Hb).
  apply Hb in Hnd as Hbt. subst b.
  split_and!.
  - by exists c1, st1.
  - destruct (cpf_Format_ok c out st Hok) as (r & c2 & st2 & Hrun2 & He & Hv).
    destruct r as [s|e]; cbn [is_err] in *.
    + destruct (Hv eq_refl) as [Hs _]. rewrite Hd in Hs.
      injection Hs as ->. by exists c2, st2.
    + destruct He as [He _]. destruct (He eq_refl) as [Hdeg|Hlen'].
      * rewrite Hd in Hdeg. done.
      * rewrite Hd in Hlen'. done.
  - destruct (Validate_ok c out st Hok) as (b & c3 & st3 & Hrun3 & _ & _ & Hb3).
    fold out in Hrun1. rewrite Hrun1 in Hrun3. injection Hrun3 as <- _ _.
    destruct (Validate_ok c (Ref.cpf_render out) st Hok)
      as (b' & c4 & st4 & Hrun4 & _ & _ & Hb4).
    unfold Ref.cpf_values in Hb3, Hb4. rewrite Hr in Hb4. rewrite Hd in Hb3.
    assert (b' = true) as -> by (apply Hb4, Hb3; reflexivity).
    by exists c4, st4.
Qed.

(** [Generate] followed by [Validate], on any receiver and store:
    accepted unless degenerate. *)
Lemma CPF_Generate_Validate st :
  exists out st',
    CPF.Generate st = Some (out, st')
    /\ forall c st2,
         slice_ok (CPF.cpfNumber c) (heap st2) ->
         exists b c2 st3,
           CPF.Validate c out st2 = Some ((b, c2), st3)
           /\ (b = true <-> ~ Ref.degenerate out).
Proof.
  destruct (Generate_ok st) as (body & st' & Hrun & Hlen & Hbody).
  eexists _, st'. split; [exact Hrun|].
  intros c st2 Hok. by apply generated_Validate.
Qed.

Lemma CNPJ_Generate_Validate st :
  exists out st',
    CNPJ.Generate st = Some (out, st') /\ CNPJ.Validate out = true.
Proof.
  destruct (generateDigits_valid false st) as (out & st' & Hrun & _ & Hv).
  by exists out, st'.
Qed.

Lemma CNPJ_GenerateLegacy_Validate st :
  exists out st',
    CNPJ.GenerateLegacy st = Some (out, st') /\ CNPJ.Validate out = true.
Proof.
  destruct (generateDigits_valid true st) as (out & st' & Hrun & _ & Hv).
  by exists out, st'.
Qed.

(** C5. A generated CPF can fail [Validate]: when the nine draws are all
    0, [Generate] returns 00000000000 (both check digits of nine zeros are
    0), which [Validate] rejects and [Format] refuses as degenerate. *)
Theorem Generate_can_fail_Validate :
  fst <$> CPF.Generate (empty_store (fun _ => 0%nat))
  = Some (str "00000000000")
  /\ (forall r, (fun x => x.1.1)
                  <$> CPF.Validate CPF.NewCPF (str "00000000000") (empty_store r)
                = Some false)
  /\ (forall r, (fun x => x.1.1)
                  <$> CPF.Format CPF.NewCPF (str "00000000000") (empty_store r)
                = Some (Err CPFNotValid)).
Proof. split_and!; reflexivity. Qed.

(** ** Further properties of the package *)

(** *** The scanners *)

Lemma filter_filter_same {A} (P : A -> Prop) `{!forall x, Decision (P x)}
    (l : list A) :
  filter P (filter P l) = filter P l.
Proof.
  induction l as [|x l IH]; [reflexivity|].
  rewrite filter_cons. destruct (decide (P x)) as [Hx|Hx]; [|exact IH].
  rewrite filter_cons, decide_True by done. by rewrite IH.
Qed.

(** X1. [CPF.digits] keeps the decimal digits of its input, all of them
    and in order, and nothing else, also past the 11 bytes of its buffer;
    applied twice it gives what it gives once. *)
Theorem CPF_digits_filter (value : list ascii) :
  CPF.digits value = filter (fun ch => CPF.isDigit ch = true) value
  /\ Forall (fun ch => CPF.isDigit ch = true) (CPF.digits value)
  /\ CPF.digits (CPF.digits value) = CPF.digits value.
Proof.
  rewrite !cpf_digits_ok. split_and!.
  - reflexivity.
  - apply cpf_digits_are_digits.
  - apply (filter_filter_same (fun c => Ref.is_digit c = true)).
Qed.

(** X2. [CNPJ.digits] turns the letters a-z into A-Z and keeps the bytes
    0-9 and A-Z, all of them and in order, also past the 14 bytes of its
    buffer. Its result is over 0-9, A-Z, and applied twice it gives what
    it gives once. *)
Theorem CNPJ_digits_normalizes (value : list ascii) :
  CNPJ.digits value
  = omap (fun ch => let '(n, ok) := CNPJ.normalizeChar ch in
                    if ok then Some n else None) value
  /\ Forall (fun ch => CNPJ.normalizeChar ch = (ch, true)) (CNPJ.digits value)
  /\ CNPJ.digits (CNPJ.digits value) = CNPJ.digits value.
Proof.
  rewrite !cnpj_digits_ok. split_and!.
  - induction value as [|ch value IH]; [reflexivity|].
    rewrite cnpj_normalize_cons. cbn [omap list_omap].
    rewrite normalizeChar_ref.
    destruct (Ref.is_alnum (Ref.to_upper ch)); by rewrite IH.
  - pose proof (cnpj_normalize_alnum value) as H.
    eapply Forall_impl; [exact H|]. intros ch Hch. cbv beta in Hch.
    rewrite normalizeChar_ref, (to_upper_alnum ch Hch), Hch. reflexivity.
  - apply cnpj_normalize_id, cnpj_normalize_alnum.
Qed.

(** *** [clean] and the receiver *)

Lemma array_of_fresh h a n c : array_of (Slice (length h) n c) (h ++ [a]) = a.
Proof.
  unfold array_of. cbn [arr].
  rewrite lookup_app_r by lia. by rewrite Nat.sub_diag.
Qed.

Lemma made_slice_ok h :
  slice_ok (Slice (length h) 0 11) (h ++ [replicate 11 0]).
Proof.
  split; cbn [slen scap]; [lia|].
  rewrite array_of_fresh. simpl. lia.
Qed.

(** With room for every digit, the loop of [clean] stays on the array it
    starts on and allocates nothing. *)
Lemma clean_loop_in_place todo : forall c st,
  slice_ok (CPF.cpfNumber c) (heap st) ->
  (slen (CPF.cpfNumber c) + length (Ref.cpf_digits todo)
   <= scap (CPF.cpfNumber c))%nat ->
  exists c' st',
    CPF.clean_loop c todo st = Some (c', st')
    /\ arr (CPF.cpfNumber c') = arr (CPF.cpfNumber c)
    /\ scap (CPF.cpfNumber c') = scap (CPF.cpfNumber c)
    /\ length (heap st') = length (heap st).
Proof.
  induction todo as [|ch todo IH]; intros c st Hok Hroom.
  - exists c, st. by split_and!.
  - cbn [CPF.clean_loop].
    change ((code "0" <=? code ch) && (code ch <=? code "9"))
      with (Ref.is_digit ch).
    unfold Ref.cpf_digits in Hroom. rewrite filter_cons in Hroom.
    destruct (decide (Ref.is_digit ch = true)) as [E|E].
    + rewrite E. rewrite length_cons in Hroom.
      assert (slen (CPF.cpfNumber c) < scap (CPF.cpfNumber c))%nat as Hlt by lia.
      destruct (append_ok (CPF.cpfNumber c)
                  (code (byte (code ch - code "0"))) st Hok)
        as (s' & st1 & Hrun & Hok1 & _).
      rewrite append_in_place in Hrun by exact Hlt.
      injection Hrun as <- <-.
      rewrite (bind_run _ _ _ _ _
                 (append_in_place (CPF.cpfNumber c) _ st Hlt)).
      edestruct (IH (CPF.Build (Slice (arr (CPF.cpfNumber c))
                                  (S (slen (CPF.cpfNumber c)))
                                  (scap (CPF.cpfNumber c)))))
        as (c' & st' & Hrun' & Ha & Hc & Hh);
        [exact Hok1 | cbn [CPF.cpfNumber slen scap]; unfold Ref.cpf_digits; lia |].
      exists c', st'. split; [exact Hrun'|]. simpl in *.
      rewrite length_insert in Hh. by split_and!.
    + apply not_true_is_false in E. rewrite E. by apply IH.
Qed.

(** X3. [clean] never panics on a usable receiver: it leaves in
    [cpfNumber] the values of the decimal digits of the input, all of them
    and in order whatever the receiver held before, on an array with room
    for at least 11; the receiver stays usable and the random source is
    not consumed. *)
Theorem CPF_clean_parses (c : CPF.t) (value : list ascii) (st : state) :
  slice_ok (CPF.cpfNumber c) (heap st) ->
  exists c' st',
    CPF.clean c value st = Some (c', st')
    /\ elems_in (CPF.cpfNumber c') (heap st')
       = (fun ch => code ch - code "0")
           <$> filter (fun ch => CPF.isDigit ch = true) value
    /\ slice_ok (CPF.cpfNumber c') (heap st')
    /\ (11 <= scap (CPF.cpfNumber c'))%nat
    /\ rng st' = rng st.
Proof.
  intros Hok.
  destruct (clean_ok c value st Hok) as (c' & st' & Hrun & Hok' & Hel & Hcap & Hr).
  exists c', st'. by split_and!.
Qed.

Lemma CPF_clean_parses_witness :
  exists c' st',
    CPF.clean CPF.NewCPF (str "123.456.789-09") (empty_store (fun _ => 0%nat))
    = Some (c', st')
    /\ elems_in (CPF.cpfNumber c') (heap st')
       = (fun ch => code ch - code "0")
           <$> filter (fun ch => CPF.isDigit ch = true) (str "123.456.789-09")
    /\ slice_ok (CPF.cpfNumber c') (heap st')
    /\ (11 <= scap (CPF.cpfNumber c'))%nat
    /\ rng st' = rng (empty_store (fun _ => 0%nat)).
Proof.
  apply (CPF_clean_parses CPF.NewCPF (str "123.456.789-09")
           (empty_store (fun _ => 0%nat))).
  split; simpl; lia.
Defined.

(** X4. [clean] allocates as the comment in its body says: nothing when
    the receiver has capacity for 11 and for the digits of the input (it
    writes over the array the receiver has), and one array of 11 when the
    receiver has less than 11 and the input has at most 11 digits. *)
Theorem CPF_clean_allocation (c : CPF.t) (value : list ascii) (st : state) :
  slice_ok (CPF.cpfNumber c) (heap st) ->
  let n := length (filter (fun ch => CPF.isDigit ch = true) value) in
  exists c' st',
    CPF.clean c value st = Some (c', st')
    /\ ((11 <= scap (CPF.cpfNumber c))%nat ->
        (n <= scap (CPF.cpfNumber c))%nat ->
        arr (CPF.cpfNumber c') = arr (CPF.cpfNumber c)
        /\ scap (CPF.cpfNumber c') = scap (CPF.cpfNumber c)
        /\ length (heap st') = length (heap st))
    /\ ((scap (CPF.cpfNumber c) < 11)%nat -> (n <= 11)%nat ->
        arr (CPF.cpfNumber c') = length (heap st)
        /\ scap (CPF.cpfNumber c') = 11%nat
        /\ length (heap st') = S (length (heap st))).
Proof.
  intros [H1 H2] n.
  change (filter (fun ch => CPF.isDigit ch = true) value)
    with (Ref.cpf_digits value) in n.
  unfold CPF.clean.
  rewrite (bind_run _ _ _ _ _ (reslice_run _ 0 st ltac:(lia))).
  cbn [scap]. unfold CpfLength.
  destruct (Z.ltb_spec (Z.of_nat (scap (CPF.cpfNumber c))) 11) as [Hlt|Hge].
  - change (Z.to_nat 11) with 11%nat.
    rewrite (bind_run _ _ st (Slice (length (heap st)) 0 11)
               (State (heap st ++ [replicate 11 0]) (rng st)))
      by reflexivity.
    destruct (clean_ok c value st (conj H1 H2)) as (c0 & st0 & Hrun0 & _).
    destruct (decide (n <= 11)%nat) as [Hn|Hn].
    + edestruct (clean_loop_in_place value
                   (CPF.Build (Slice (length (heap st)) 0 11))
                   (State (heap st ++ [replicate 11 0]) (rng st)))
        as (c' & st' & Hrun & Ha & Hc & Hh).
      { apply (made_slice_ok (heap st)). }
      { simpl. exact Hn. }
      exists c', st'. split; [exact Hrun|]. simpl in *.
      rewrite length_app in Hh. simpl in Hh.
      split; [lia|]. intros _ _. split_and!; [done | done | lia].
    + edestruct (clean_loop_ok value
                   (CPF.Build (Slice (length (heap st)) 0 11))
                   (State (heap st ++ [replicate 11 0]) (rng st)))
        as (c' & st' & Hrun & _).
      { apply (made_slice_ok (heap st)). }
      exists c', st'. split; [exact Hrun|]. split; [lia|]. intros _ ?. lia.
  - rewrite (bind_run _ _ st
               (Slice (arr (CPF.cpfNumber c)) 0 (scap (CPF.cpfNumber c))) st)
      by reflexivity.
    destruct (decide (n <= scap (CPF.cpfNumber c))%nat) as [Hn|Hn].
    + edestruct (clean_loop_in_place value
                   (CPF.Build (Slice (arr (CPF.cpfNumber c)) 0
                                 (scap (CPF.cpfNumber c)))))
        as (c' & st' & Hrun & Ha & Hc & Hh).
      { split; simpl; [lia | exact H2]. }
      { simpl. exact Hn. }
      exists c', st'. split; [exact Hrun|]. simpl in *.
      split; [by intros _ _ | lia].
    + edestruct (clean_loop_ok value
                   (CPF.Build (Slice (arr (CPF.cpfNumber c)) 0
                                 (scap (CPF.cpfNumber c)))))
        as (c' & st' & Hrun & _).
      { split; simpl; [lia | exact H2]. }
      exists c', st'. split; [exact Hrun|]. split; [intros _ ?; lia | lia].
Qed.

Lemma CPF_clean_allocation_witness :
  exists c' st',
    CPF.clean (CPF.Build (Slice 0 11 11)) (str "987.654.321-00") sample_store
    = Some (c', st')
    /\ arr (CPF.cpfNumber c') = 0%nat
    /\ scap (CPF.cpfNumber c') = 11%nat
    /\ length (heap st') = 1%nat.
Proof.
  destruct (CPF_clean_allocation (CPF.Build (Slice 0 11 11))
              (str "987.654.321-00") sample_store)
    as (c' & st' & Hrun & Hsame & _).
  { split; simpl; lia. }
  exists c', st'. split; [exact Hrun|].
  apply Hsame; simpl; lia.
Defined.

(** *** The answers of [Validate], [Format] and [CheckOrigin] *)

Lemma bool_eq_iff (a b : bool) : (a = true <-> b = true) -> a = b.
Proof. destruct a, b; intuition congruence. Qed.

Lemma cpf_answer_true value :
  cpf_answer value = true <->
  ~ Ref.degenerate (Ref.cpf_digits value)
  /\ length (Ref.cpf_values value) = 11%nat
  /\ validate_decides (Ref.cpf_values value) = true.
Proof.
  unfold cpf_answer.
  rewrite !andb_true_iff, bool_decide_eq_true, isAccepted_ref. tauto.
Qed.

Lemma Validate_exact c value st :
  slice_ok (CPF.cpfNumber c) (heap st) ->
  exists c' st',
    CPF.Validate c value st = Some ((cpf_answer value, c'), st')
    /\ slice_ok (CPF.cpfNumber c') (heap st')
    /\ rng st' = rng st.
Proof.
  intros Hok.
  destruct (Validate_ok c value st Hok) as (b & c' & st' & Hrun & Hok' & Hr & Hb).
  exists c', st'. split_and!; [|done..].
  rewrite Hrun. do 3 f_equal. apply bool_eq_iff.
  by rewrite Hb, cpf_answer_true.
Qed.

Lemma Format_exact c value st :
  slice_ok (CPF.cpfNumber c) (heap st) ->
  exists c' st',
    CPF.Format c value st = Some ((cpf_format_answer value, c'), st')
    /\ slice_ok (CPF.cpfNumber c') (heap st')
    /\ rng st' = rng st.
Proof.
  intros Hok.
  destruct (clean_ok c value st Hok) as (c1 & st1 & Hrun & Hok1 & Hel & Hcap & Hr).
  unfold CPF.Format, cpf_format_answer. rewrite (bind_run _ _ _ _ _ Hrun).
  pose proof (elems_in_length _ _ Hok1) as Hlen.
  rewrite Hel, cpf_values_length in Hlen.
  destruct (CPF.isAccepted value); cbn [negb].
  2:{ exists c1, st1. by split_and!. }
  unfold CpfLength, len. rewrite <- Hlen.
  destruct (Z.eqb_spec (Z.of_nat (length (Ref.cpf_digits value))) 11) as [E|E];
    cbn [negb].
  - rewrite bool_decide_eq_true_2 by lia.
    rewrite (bind_run _ _ _ _ _
               (maskCPF_ok _ _ _ Hok1 Hel (cpf_digits_are_digits value)
                  ltac:(lia))).
    exists c1, st1. by split_and!.
  - rewrite bool_decide_eq_false_2 by lia.
    exists c1, st1. by split_and!.
Qed.

Lemma CheckOrigin_exact c value st :
  slice_ok (CPF.cpfNumber c) (heap st) ->
  exists c' st',
    CPF.CheckOrigin c value st = Some ((cpf_origin_answer value, c'), st')
    /\ slice_ok (CPF.cpfNumber c') (heap st')
    /\ rng st' = rng st.
Proof.
  intros Hok.
  destruct (clean_ok c value st Hok) as (c1 & st1 & Hrun & Hok1 & Hel & Hcap & Hr).
  unfold CPF.CheckOrigin, cpf_origin_answer. rewrite (bind_run _ _ _ _ _ Hrun).
  pose proof (elems_in_length _ _ Hok1) as Hlen. rewrite Hel in Hlen.
  destruct (Nat.ltb_spec (slen (CPF.cpfNumber c1)) 9) as [Hlt|Hge].
  - rewrite (lookup_ge_None_2 (Ref.cpf_values value) 8) by lia.
    exists c1, st1. by split_and!.
  - destruct (lookup_lt_is_Some_2 (Ref.cpf_values value) 8) as [d Hd]; [lia|].
    assert (is_digit_value d) as Hdv
      by (eapply Forall_lookup_1; [apply cpf_values_digits | exact Hd]).
    rewrite Hd. rewrite <- Hel in Hd.
    rewrite (bind_run _ _ _ _ _ (index_ok _ _ _ _ Hok1 Hd)).
    exists c1, st1. split_and!; [|done..]. unfold ret. do 3 f_equal.
    red in Hdv.
    assert (d = 0 \/ d = 1 \/ d = 2 \/ d = 3 \/ d = 4 \/ d = 5 \/ d = 6
            \/ d = 7 \/ d = 8 \/ d = 9) as H by lia.
    repeat destruct H as [->|H]; try subst d; reflexivity.
Qed.

(** X5. What [Validate] decides, on any usable receiver and without ever
    panicking: true exactly when the digits of the input are not 11 equal
    digits, there are 11 of them, and the digit at index 10 is the second
    check digit of the first nine digits followed by their recomputed
    first check digit. The digit at index 9 plays no part. *)
Theorem CPF_Validate_decides (c : CPF.t) (value : list ascii) (st : state) :
  slice_ok (CPF.cpfNumber c) (heap st) ->
  exists b c' st',
    CPF.Validate c value st = Some ((b, c'), st')
    /\ (b = true <->
        ~ Ref.degenerate (Ref.cpf_digits value)
        /\ length (Ref.cpf_values value) = 11%nat
        /\ Ref.cpf_values value !! 10%nat
           = Some (Ref.cpf_second_digit
                     (take 9 (Ref.cpf_values value)
                      ++ [Ref.cpf_first_digit (take 9 (Ref.cpf_values value))]))).
Proof.
  intros Hok.
  destruct (Validate_ok c value st Hok) as (b & c' & st' & Hrun & _ & _ & Hb).
  exists b, c', st'. split; [exact Hrun|]. rewrite Hb.
  unfold validate_decides. by rewrite bool_decide_eq_true.
Qed.

Lemma CPF_Validate_decides_witness :
  exists b c' st',
    CPF.Validate CPF.NewCPF (str "123.456.789-19") (empty_store (fun _ => 0%nat))
    = Some ((b, c'), st')
    /\ (b = true <->
        ~ Ref.degenerate (Ref.cpf_digits (str "123.456.789-19"))
        /\ length (Ref.cpf_values (str "123.456.789-19")) = 11%nat
        /\ Ref.cpf_values (str "123.456.789-19") !! 10%nat
           = Some (Ref.cpf_second_digit
                     (take 9 (Ref.cpf_values (str "123.456.789-19"))
                      ++ [Ref.cpf_first_digit
                            (take 9 (Ref.cpf_values (str "123.456.789-19")))]))).
Proof.
  apply (CPF_Validate_decides CPF.NewCPF (str "123.456.789-19")
           (empty_store (fun _ => 0%nat))).
  split; simpl; lia.
Defined.

(** X6. Every input that is valid by the reference definition (not
    degenerate, 11 digits, both check digits as recomputed from the digits
    before them) is accepted by [Validate], on any usable receiver. *)
Theorem CPF_Validate_accepts_reference (c : CPF.t) (value : list ascii)
    (st : state) :
  slice_ok (CPF.cpfNumber c) (heap st) ->
  Ref.cpf_valid value ->
  exists c' st', CPF.Validate c value st = Some ((true, c'), st').
Proof. intros Hok Hv. by apply Validate_accepts_valid. Qed.

Lemma sample_is_valid : Ref.cpf_valid (str "123.456.789-09").
Proof.
  split_and!; [|reflexivity..].
  intros (d & _ & Heq). vm_compute in Heq. congruence.
Defined.

Lemma CPF_Validate_accepts_reference_witness :
  exists c' st',
    CPF.Validate CPF.NewCPF (str "123.456.789-09") (empty_store (fun _ => 0%nat))
    = Some ((true, c'), st').
Proof.
  apply (CPF_Validate_accepts_reference CPF.NewCPF (str "123.456.789-09")
           (empty_store (fun _ => 0%nat))).
  - split; simpl; lia.
  - exact sample_is_valid.
Defined.

(** X7. The answers of [Validate], [Format] and [CheckOrigin] are
    functions of the input alone: what the receiver held from earlier
    calls, and what the store holds, change nothing. *)
Theorem CPF_answers_ignore_receiver (c1 c2 : CPF.t) (st1 st2 : state)
    (value : list ascii) :
  slice_ok (CPF.cpfNumber c1) (heap st1) ->
  slice_ok (CPF.cpfNumber c2) (heap st2) ->
  (fun x => x.1.1) <$> CPF.Validate c1 value st1
  = (fun x => x.1.1) <$> CPF.Validate c2 value st2
  /\ (fun x => x.1.1) <$> CPF.Format c1 value st1
     = (fun x => x.1.1) <$> CPF.Format c2 value st2
  /\ (fun x => x.1.1) <$> CPF.CheckOrigin c1 value st1
     = (fun x => x.1.1) <$> CPF.CheckOrigin c2 value st2
  /\ is_Some (CPF.Validate c1 value st1).
Proof.
  intros Hok1 Hok2. split_and!.
  - destruct (Validate_exact c1 value st1 Hok1) as (? & ? & -> & _).
    destruct (Validate_exact c2 value st2 Hok2) as (? & ? & -> & _).
    reflexivity.
  - destruct (Format_exact c1 value st1 Hok1) as (? & ? & -> & _).
    destruct (Format_exact c2 value st2 Hok2) as (? & ? & -> & _).
    reflexivity.
  - destruct (CheckOrigin_exact c1 value st1 Hok1) as (? & ? & -> & _).
    destruct (CheckOrigin_exact c2 value st2 Hok2) as (? & ? & -> & _).
    reflexivity.
  - destruct (Validate_exact c1 value st1 Hok1) as (? & ? & -> & _). eauto.
Qed.

Lemma CPF_answers_ignore_receiver_witness :
  (fun x => x.1.1)
    <$> CPF.Validate CPF.NewCPF (str "987.654.321-00")
          (empty_store (fun _ => 0%nat))
  = (fun x => x.1.1)
      <$> CPF.Validate (CPF.Build (Slice 0 11 11)) (str "987.654.321-00")
            sample_store.
Proof.
  apply (CPF_answers_ignore_receiver CPF.NewCPF (CPF.Build (Slice 0 11 11))
           (empty_store (fun _ => 0%nat)) sample_store (str "987.654.321-00")).
  - split; simpl; lia.
  - split; simpl; lia.
Defined.

(** *** The first release and the current [validate] *)

(** X8. The [validate] of the first release, on a usable slice of 11
    digits: it never panics, writes nothing, and returns true exactly when
    the digit at index 9 is the first check digit of the first 9 digits and
    the digit at index 10 is the second check digit of the first 10 digits
    as given. *)
Theorem Legacy_validate_decides (values : slice) (st : state) :
  slice_ok values (heap st) ->
  slen values = 11%nat ->
  Forall is_digit_value (elems_in values (heap st)) ->
  let ds := elems_in values (heap st) in
  exists b,
    Legacy.validate values st = Some (b, st)
    /\ (b = true <->
        ds !! 9%nat = Some (Ref.cpf_first_digit (take 9 ds))
        /\ ds !! 10%nat = Some (Ref.cpf_second_digit (take 10 ds))).
Proof.
  intros Hok Hlen Hdig ds.
  rewrite (legacy_validate_ok values st Hok Hlen Hdig). fold ds.
  eexists. split; [reflexivity|].
  unfold legacy_decides. by rewrite andb_true_iff, !bool_decide_eq_true.
Qed.

Lemma Legacy_validate_decides_witness :
  exists b,
    Legacy.validate (Slice 0 11 11) sample_store = Some (b, sample_store)
    /\ (b = true <->
        [1; 2; 3; 4; 5; 6; 7; 8; 9; 0; 9] !! 9%nat
        = Some (Ref.cpf_first_digit [1; 2; 3; 4; 5; 6; 7; 8; 9])
        /\ [1; 2; 3; 4; 5; 6; 7; 8; 9; 0; 9] !! 10%nat
           = Some (Ref.cpf_second_digit [1; 2; 3; 4; 5; 6; 7; 8; 9; 0])).
Proof.
  apply (Legacy_validate_decides (Slice 0 11 11) sample_store).
  - split; simpl; lia.
  - reflexivity.
  - repeat constructor; unfold is_digit_value; lia.
Defined.

(** X9. On the same slice of 11 digits, whenever the [validate] of the
    first release returns true the current [validate] returns true too,
    and then it leaves the elements as they were: the digit it writes at
    index 9 is the digit that was there. *)
Theorem first_release_accepts_current_accepts (values : slice) (st : state) :
  slice_ok values (heap st) ->
  slen values = 11%nat ->
  Forall is_digit_value (elems_in values (heap st)) ->
  Legacy.validate values st = Some (true, st) ->
  exists st',
    CPF.validate values st = Some (true, st')
    /\ elems_in values (heap st') = elems_in values (heap st).
Proof.
  intros Hok Hlen Hdig Hleg.
  rewrite (legacy_validate_ok values st Hok Hlen Hdig) in Hleg.
  injection Hleg as Hleg.
  assert (length (elems_in values (heap st)) = 11%nat) as Hl
    by (by rewrite elems_in_length).
  rewrite (validate_ok values st Hok Hlen Hdig).
  rewrite (legacy_accepts_validate_accepts _ Hl Hleg).
  eexists. split; [reflexivity|]. cbn [heap].
  unfold legacy_decides in Hleg.
  apply andb_true_iff in Hleg as [H9 _]. apply bool_decide_eq_true in H9.
  unfold elems_in at 1. destruct Hok as [H1 H2].
  rewrite array_of_write by (done || lia).
  rewrite take_insert_lt by lia. fold (elems_in values (heap st)).
  by apply list_insert_id.
Qed.

Lemma first_release_accepts_current_accepts_witness :
  exists st',
    CPF.validate (Slice 0 11 11) sample_store = Some (true, st')
    /\ elems_in (Slice 0 11 11) (heap st')
       = elems_in (Slice 0 11 11) (heap sample_store).
Proof.
  apply (first_release_accepts_current_accepts (Slice 0 11 11) sample_store).
  - split; simpl; lia.
  - reflexivity.
  - repeat constructor; unfold is_digit_value; lia.
  - reflexivity.
Defined.

(** *** [CPF.Generate], draw by draw *)

Lemma drawn_S r n :
  drawn r (S n) = Z.of_nat (r 0%nat) mod 10 :: drawn (fun k => r (S k)) n.
Proof.
  unfold drawn. cbn [seq fmap list_fmap]. f_equal.
  rewrite <- (fmap_S_seq 0 n), <- list_fmap_compose. reflexivity.
Qed.

Lemma drawn_digits r n : Forall is_digit_value (drawn r n).
Proof.
  unfold drawn. apply Forall_fmap, Forall_forall. intros k _. simpl.
  pose proof (Z.mod_pos_bound (Z.of_nat (r k)) 10 ltac:(lia)). red. lia.
Qed.

Lemma drawn_length r n : length (drawn r n) = n.
Proof. unfold drawn. by rewrite length_fmap, length_seq. Qed.

(** The drawing loop writes the draws at the indices it visits and
    consumes one output of the source for each. *)
Lemma draw_loop_exact n : forall i number st,
  slice_ok number (heap st) ->
  (i + n <= slen number)%nat ->
  exists st',
    CPF.draw_loop number i n st = Some (tt, st')
    /\ slice_ok number (heap st')
    /\ array_of number (heap st')
       = take i (array_of number (heap st)) ++ drawn (rng st) n
         ++ drop (i + n) (array_of number (heap st))
    /\ rng st' = (fun k => rng st (n + k)%nat).
Proof.
  induction n as [|n IH]; intros i number st Hok Hin.
  - exists st. rewrite Nat.add_0_r. split_and!; [done..| |done].
    change (drawn (rng st) 0) with (@nil Z). cbn [app].
    by rewrite take_drop.
  - cbn [CPF.draw_loop].
    rewrite (bind_run _ _ _ _ _ (Intn_run 10 st ltac:(lia))).
    set (d := Z.of_nat (rng st 0%nat) mod 10).
    set (st1 := State (heap st) (fun k => rng st (S k))).
    destruct (assign_ok number i d st1 Hok ltac:(lia)) as (st2 & Hrun & Harr & Hr2).
    rewrite (bind_run _ _ _ _ _ Hrun).
    pose proof Hok as [H1 H2].
    destruct (IH (S i) number st2) as (st' & Hrun' & Hok' & Harr' & Hr').
    { split; [done|]. rewrite Harr, length_insert. done. }
    { lia. }
    exists st'. split_and!; [done..| |].
    + rewrite Harr', Harr, Hr2. cbn [heap rng st1].
      rewrite drawn_S. fold d.
      rewrite take_S_insert by lia.
      rewrite drop_insert_lt by lia.
      replace (S i + n)%nat with (i + S n)%nat by lia.
      by rewrite <- app_assoc.
    + rewrite Hr', Hr2. reflexivity.
Qed.

Lemma Generate_exact (st : state) :
  exists st',
    CPF.Generate st
    = Some (Ref.digit_char <$> generated (drawn (rng st) 9), st')
    /\ rng st' = (fun k => rng st (9 + k)%nat)
    /\ length (Ref.digit_char <$> generated (drawn (rng st) 9)) = 11%nat
    /\ Forall (fun ch => CPF.isDigit ch = true)
         (Ref.digit_char <$> generated (drawn (rng st) 9)).
Proof.
  set (body := drawn (rng st) 9).
  assert (length body = 9%nat) as Hlen by apply drawn_length.
  assert (Forall is_digit_value body) as Hbody by apply drawn_digits.
  assert (Forall is_digit_value (generated body)) as Hgen.
  { unfold generated. apply Forall_app. split; [done|].
    constructor; [apply cpf_check_range|].
    constructor; [apply cpf_check_range|]. constructor. }
  unfold CPF.Generate, literal.
  set (number := Slice (length (heap st)) 9 9).
  set (st0 := State (heap st ++ [[0; 0; 0; 0; 0; 0; 0; 0; 0]]) (rng st)).
  rewrite (bind_run _ _ st number st0) by reflexivity.
  assert (array_of number (heap st0) = [0; 0; 0; 0; 0; 0; 0; 0; 0]) as Ha0
    by apply array_of_fresh.
  assert (slice_ok number (heap st0)) as Hok0.
  { split; [done|]. rewrite Ha0. done. }
  destruct (draw_loop_exact 9 0 number st0 Hok0 ltac:(done))
    as (st1 & Hrun1 & Hok1 & Harr1 & Hr1).
  rewrite (bind_run _ _ _ _ _ Hrun1).
  assert (elems_in number (heap st1) = body) as Hel1.
  { unfold elems_in. rewrite Harr1, Ha0. cbn [take drop app slen number].
    rewrite app_nil_r. fold body. apply take_ge. lia. }
  rewrite (bind_run _ _ _ _ _
             (calculateFirstDigit_ok number st1
                ltac:(by rewrite Hel1) ltac:(by rewrite Hel1))).
  rewrite Hel1. set (dv1 := Ref.cpf_first_digit body).
  destruct (append_ok number dv1 st1 Hok1)
    as (number2 & st2 & Hrun2 & Hok2 & Hel2 & _ & Hr2).
  rewrite (bind_run _ _ _ _ _ Hrun2). rewrite Hel1 in Hel2.
  assert (is_digit_value dv1) as Hdv1 by apply cpf_check_range.
  assert (Forall is_digit_value (elems_in number2 (heap st2))) as Hall2.
  { rewrite Hel2. apply Forall_app. split; [done | by constructor]. }
  rewrite (bind_run _ _ _ _ _
             (calculateSecondDigit_ok _ _ Hall2
                ltac:(rewrite Hel2, length_app, Hlen; reflexivity))).
  rewrite Hel2. set (dv2 := Ref.cpf_second_digit (body ++ [dv1])).
  destruct (append_ok number2 dv2 st2 Hok2)
    as (number3 & st3 & Hrun3 & Hok3 & Hel3 & _ & Hr3).
  rewrite (bind_run _ _ _ _ _ Hrun3).
  unfold bind, elems, ret. rewrite Hel3, Hel2.
  assert ((body ++ [dv1]) ++ [dv2] = generated body) as ->
    by (unfold generated; by rewrite <- app_assoc).
  rewrite Itoa_digits, cpf_digits_ok, cpf_digits_of_digit_chars by done.
  exists st3. split_and!.
  - done.
  - rewrite Hr3, Hr2, Hr1. reflexivity.
  - unfold generated. rewrite length_fmap, length_app, Hlen. reflexivity.
  - rewrite <- (cpf_digits_of_digit_chars (generated body)) by done.
    apply cpf_digits_are_digits.
Qed.


Lemma digit_char_inj d1 d2 :
  is_digit_value d1 -> is_digit_value d2 ->
  Ref.digit_char d1 = Ref.digit_char d2 -> d1 = d2.
Proof.
  intros H1 H2 Heq.
  rewrite <- (code_digit_char d1), <- (code_digit_char d2) by done.
  by rewrite Heq.
Qed.

(** A generated CPF is degenerate exactly when the nine draws are
    equal. *)
Lemma generated_degenerate_iff body :
  length body = 9%nat -> Forall is_digit_value body ->
  Ref.degenerate (Ref.digit_char <$> generated body)
  <-> exists d, body = replicate 9 d.
Proof.
  intros Hlen Hbody. split.
  - intros (c & _ & Heq).
    do 9 (destruct body as [|? body]; [discriminate Hlen|]).
    destruct body; [|discriminate Hlen].
    repeat match goal with
           | H : Forall _ (_ :: _) |- _ => apply Forall_cons in H as [? H]
           end.
    unfold generated in Heq. cbn [app fmap list_fmap replicate] in Heq.
    injection Heq as ?????????.
    exists z. cbn [replicate].
    repeat f_equal; apply digit_char_inj; try done; congruence.
  - intros [d ->].
    apply Forall_cons in Hbody as [Hd _].
    rewrite equal_draws_degenerate by done.
    exists (Ref.digit_char d). split; [by apply digit_char_is_digit|].
    by rewrite fmap_replicate.
Qed.

(** X11. [Validate] (on any usable receiver) accepts what [Generate]
    returns exactly when the nine draws are not all equal; when they are
    all equal the check digits are that digit again and the result is one
    of the ten rejected sequences. *)
Theorem CPF_Generate_then_Validate (st : state) (c : CPF.t) (st2 : state) :
  slice_ok (CPF.cpfNumber c) (heap st2) ->
  exists out st' b c' st3,
    CPF.Generate st = Some (out, st')
    /\ CPF.Validate c out st2 = Some ((b, c'), st3)
    /\ (b = true <-> ~ exists d, drawn (rng st) 9 = replicate 9 d)
    /\ (forall d, drawn (rng st) 9 = replicate 9 d ->
                  out = replicate 11 (Ref.digit_char d)).
Proof.
  intros Hok.
  destruct (Generate_exact st) as (st' & Hrun & _).
  pose proof (drawn_length (rng st) 9) as Hlen.
  pose proof (drawn_digits (rng st) 9) as Hbody.
  destruct (generated_Validate _ c st2 Hlen Hbody Hok)
    as (b & c' & st3 & Hv & Hb).
  eexists _, st', b, c', st3. split; [exact Hrun|]. split; [exact Hv|].
  split.
  - rewrite Hb. by rewrite generated_degenerate_iff.
  - intros d Hd. rewrite Hd.
    rewrite equal_draws_degenerate, fmap_replicate; [done|].
    rewrite Hd in Hbody. by apply Forall_cons in Hbody as [? _].
Qed.

Lemma counting_draws_differ : ~ exists d, drawn (fun k => k) 9 = replicate 9 d.
Proof. intros [d H]. vm_compute in H. congruence. Defined.

Lemma CPF_Generate_then_Validate_witness :
  exists out st' b c' st3,
    CPF.Generate (empty_store (fun k => k)) = Some (out, st')
    /\ CPF.Validate CPF.NewCPF out (empty_store (fun k => k))
       = Some ((b, c'), st3)
    /\ (b = true <-> ~ exists d, drawn (fun k => k) 9 = replicate 9 d)
    /\ (forall d, drawn (fun k => k) 9 = replicate 9 d ->
                  out = replicate 11 (Ref.digit_char d)).
Proof.
  apply (CPF_Generate_then_Validate (empty_store (fun k => k)) CPF.NewCPF
           (empty_store (fun k => k))).
  split; simpl; lia.
Defined.

(** X12. The round trip of a generated CPF, when the nine draws are not
    all equal: [Validate] accepts it, [Format] renders it in 14
    characters, and [Validate] accepts the rendering. *)
Theorem CPF_Generate_round_trip (st : state) (c : CPF.t) (st2 : state) :
  slice_ok (CPF.cpfNumber c) (heap st2) ->
  (~ exists d, drawn (rng st) 9 = replicate 9 d) ->
  exists out st',
    CPF.Generate st = Some (out, st')
    /\ (exists c' st3, CPF.Validate c out st2 = Some ((true, c'), st3))
    /\ (exists c' st3,
          CPF.Format c out st2 = Some ((Ok (Ref.cpf_render out), c'), st3))
    /\ length (Ref.cpf_render out) = 14%nat
    /\ (exists c' st3,
          CPF.Validate c (Ref.cpf_render out) st2 = Some ((true, c'), st3)).
Proof.
  intros Hok Hne.
  destruct (Generate_exact st) as (st' & Hrun & _ & Hl & _).
  pose proof (drawn_length (rng st) 9) as Hlen.
  pose proof (drawn_digits (rng st) 9) as Hbody.
  assert (~ Ref.degenerate (Ref.digit_char <$> generated (drawn (rng st) 9)))
    as Hnd.
  { intros Hd. apply Hne.
    exact (proj1 (generated_degenerate_iff _ Hlen Hbody) Hd). }
  destruct (generated_round_trip _ c st2 Hlen Hbody Hnd Hok) as (H1 & H2 & H3).
  eexists _, st'. split; [exact Hrun|].
  split; [exact H1|]. split; [exact H2|]. split; [|exact H3].
  apply cpf_render_length. exact Hl.
Qed.

Lemma CPF_Generate_round_trip_witness :
  exists out st',
    CPF.Generate (empty_store (fun k => k)) = Some (out, st')
    /\ (exists c' st3,
          CPF.Validate CPF.NewCPF out (empty_store (fun k => k))
          = Some ((true, c'), st3))
    /\ (exists c' st3,
          CPF.Format CPF.NewCPF out (empty_store (fun k => k))
          = Some ((Ok (Ref.cpf_render out), c'), st3))
    /\ length (Ref.cpf_render out) = 14%nat
    /\ (exists c' st3,
          CPF.Validate CPF.NewCPF (Ref.cpf_render out)
            (empty_store (fun k => k)) = Some ((true, c'), st3)).
Proof.
  apply (CPF_Generate_round_trip (empty_store (fun k => k)) CPF.NewCPF
           (empty_store (fun k => k))).
  - split; simpl; lia.
  - exact counting_draws_differ.
Defined.

(** *** The error of [calculateDV] *)

Lemma calculateDV_loop_stops pre : forall ch rest sum j,
  Forall (fun c => Ref.is_alnum c = true) pre ->
  Ref.is_alnum ch = false ->
  CNPJ.calculateDV_loop (pre ++ ch :: rest) sum j
  = Err (InvalidCharacter ch (len rest)).
Proof.
  induction pre as [|c pre IH]; intros ch rest sum j Hpre Hch.
  - cbn [app CNPJ.calculateDV_loop]. by rewrite charToValue_spec, Hch.
  - apply Forall_cons in Hpre as [Hc Hpre].
    cbn [app CNPJ.calculateDV_loop]. rewrite charToValue_spec, Hc.
    by apply IH.
Qed.

(** X13. The error of [calculateDV] names the rightmost character of the
    input that the conversion map does not hold, with its index; the
    characters to its left are not looked at. *)
Theorem calculateDV_reports_rightmost (pre post : list ascii) (ch : ascii) :
  charToValue !! code ch = None ->
  Forall (fun c => is_Some (charToValue !! code c)) post ->
  CNPJ.calculateDV (pre ++ ch :: post) = Err (InvalidCharacter ch (len pre)).
Proof.
  intros Hch Hpost. unfold CNPJ.calculateDV.
  rewrite reverse_app, reverse_cons, <- app_assoc. cbn [app].
  rewrite calculateDV_loop_stops.
  - unfold len. by rewrite length_reverse.
  - apply Forall_reverse. eapply Forall_impl; [exact Hpost|].
    intros c Hc. cbv beta in Hc. rewrite charToValue_spec in Hc.
    destruct (Ref.is_alnum c); [done | by destruct Hc].
  - rewrite charToValue_spec in Hch. by destruct (Ref.is_alnum ch).
Qed.

Lemma calculateDV_reports_rightmost_witness :
  CNPJ.calculateDV (str "12a" ++ "b"%char :: str "34")
  = Err (InvalidCharacter "b" (len (str "12a"))).
Proof.
  apply (calculateDV_reports_rightmost (str "12a") (str "34") "b").
  - reflexivity.
  - repeat constructor; vm_compute; eauto.
Defined.

(** *** The CNPJ generators *)

Lemma drawn_digit_is_digit d :
  0 <= d < 10 -> Ref.is_digit (byte (add (code "0") d)) = true.
Proof.
  intros Hd. change (code "0") with 48. rewrite add_small by lia.
  apply digit_char_is_digit. lia.
Qed.

Lemma legacy_loop_digits n : forall i base st,
  (i + n <= length base)%nat ->
  Forall (fun c => Ref.is_digit c = true) (take i base) ->
  exists base' st',
    CNPJ.legacy_loop base i n st = Some (base', st')
    /\ length base' = length base
    /\ Forall (fun c => Ref.is_digit c = true) (take (i + n) base')
    /\ heap st' = heap st.
Proof.
  induction n as [|n IH]; intros i base st Hin Hall.
  - exists base, st. rewrite Nat.add_0_r. by split_and!.
  - cbn [CNPJ.legacy_loop].
    rewrite (bind_run _ _ _ _ _ (Intn_run 10 st ltac:(lia))).
    set (d := Z.of_nat (rng st 0%nat) mod 10).
    assert (0 <= d < 10) as Hd by (apply Z.mod_pos_bound; lia).
    destruct (IH (S i) (<[i := byte (add (code "0") d)]> base)
                (State (heap st) (fun k => rng st (S k))))
      as (base' & st' & Hrun & Hlen & Hall' & Hh).
    { rewrite length_insert. lia. }
    { rewrite take_S_insert by lia. apply Forall_app. split; [exact Hall|].
      constructor; [by apply drawn_digit_is_digit | constructor]. }
    exists base', st'. rewrite length_insert in Hlen.
    replace (i + S n)%nat with (S i + n)%nat by lia.
    split; [exact Hrun|]. split; [exact Hlen|]. split; [exact Hall'|exact Hh].
Qed.

Lemma is_digit_alnum c : Ref.is_digit c = true -> Ref.is_alnum c = true.
Proof. unfold Ref.is_alnum. by intros ->. Qed.

Lemma alnum_normalizeChar c :
  Ref.is_alnum c = true -> CNPJ.normalizeChar c = (c, true).
Proof.
  intros Hc. by rewrite normalizeChar_ref, (to_upper_alnum c Hc), Hc.
Qed.

(** What [generateDigits] returns: a base of 12 characters over 0-9, A-Z
    (over 0-9 in legacy mode) and its two check digits. *)
Lemma generateDigits_shape legacy st :
  exists base st',
    CNPJ.generateDigits legacy st
    = Some (base ++ [Ref.digit_char (Ref.cnpj_check_digit base);
                     Ref.digit_char
                       (Ref.cnpj_check_digit
                          (base ++ [Ref.digit_char (Ref.cnpj_check_digit base)]))],
            st')
    /\ length base = 12%nat
    /\ Forall (fun c => Ref.is_alnum c = true) base
    /\ (legacy = true -> Forall (fun c => Ref.is_digit c = true) base)
    /\ heap st' = heap st.
Proof.
  assert (exists base st',
    (if legacy then CNPJ.legacy_loop (replicate 12 zero) 0 12
     else CNPJ.alnum_loop (replicate 12 zero) 0 12) st = Some (base, st')
    /\ length base = 12%nat
    /\ Forall (fun c => Ref.is_alnum c = true) base
    /\ (legacy = true -> Forall (fun c => Ref.is_digit c = true) base)
    /\ heap st' = heap st)
    as (base & st' & Hrun & Hlen & Hall & Hleg & Hh).
  { destruct legacy.
    - destruct (legacy_loop_digits 12 0 (replicate 12 zero) st)
        as (base & st' & Hrun & Hlen & Hall & Hh);
        [simpl; lia | constructor |].
      rewrite take_ge in Hall by (rewrite Hlen; simpl; lia).
      exists base, st'. split; [exact Hrun|]. split; [exact Hlen|].
      split; [|split; [intros _; exact Hall | exact Hh]].
      eapply Forall_impl; [exact Hall|]. apply is_digit_alnum.
    - destruct (alnum_loop_ok 12 0 (replicate 12 zero) st)
        as (base & st' & Hrun & Hlen & Hall & Hh);
        [simpl; lia | constructor |].
      rewrite take_ge in Hall by (rewrite Hlen; simpl; lia).
      exists base, st'. split; [exact Hrun|]. split; [exact Hlen|].
      split; [exact Hall|]. split; [discriminate | exact Hh]. }
  unfold CNPJ.generateDigits. rewrite (bind_run _ _ _ _ _ Hrun).
  destruct (cnpj_check_digits_ok base Hlen Hall) as [-> ->].
  pose proof (cnpj_check_digit_range base) as Hr1.
  pose proof (cnpj_check_digit_range
                (base ++ [Ref.digit_char (Ref.cnpj_check_digit base)])) as Hr2.
  rewrite !Itoa_digit by done.
  exists base, st'. split; [reflexivity|].
  split; [exact Hlen|]. split; [exact Hall|]. split; [exact Hleg | exact Hh].
Qed.

(** X14. [Generate] and [GenerateLegacy] never panic and never return
    the empty string of their error branches, whatever the random source
    yields: the result has 14 characters over 0-9, A-Z, all of them
    decimal digits for [GenerateLegacy], and [Validate] accepts it. *)
Theorem CNPJ_generators_valid (st : state) :
  (exists out st',
     CNPJ.Generate st = Some (out, st')
     /\ length out = 14%nat
     /\ Forall (fun ch => CNPJ.normalizeChar ch = (ch, true)) out
     /\ CNPJ.Validate out = true)
  /\ (exists out st',
        CNPJ.GenerateLegacy st = Some (out, st')
        /\ length out = 14%nat
        /\ Forall (fun ch => CPF.isDigit ch = true) out
        /\ CNPJ.Validate out = true).
Proof.
  split.
  - destruct (generateDigits_shape false st)
      as (base & st' & Hrun & Hlen & Hall & _ & _).
    eexists _, st'. split; [exact Hrun|].
    pose proof (cnpj_check_digit_range base) as Hr1.
    pose proof (cnpj_check_digit_range
                  (base ++ [Ref.digit_char (Ref.cnpj_check_digit base)])) as Hr2.
    split; [rewrite length_app, Hlen; reflexivity|]. split.
    + apply Forall_app. split.
      * eapply Forall_impl; [exact Hall|]. apply alnum_normalizeChar.
      * constructor; [apply alnum_normalizeChar, digit_char_alnum; exact Hr1|].
        constructor; [apply alnum_normalizeChar, digit_char_alnum; exact Hr2|].
        constructor.
    + apply base_with_check_digits_valid; [exact Hlen | exact Hall].
  - destruct (generateDigits_shape true st)
      as (base & st' & Hrun & Hlen & Hall & Hdig & _).
    eexists _, st'. split; [exact Hrun|].
    pose proof (cnpj_check_digit_range base) as Hr1.
    pose proof (cnpj_check_digit_range
                  (base ++ [Ref.digit_char (Ref.cnpj_check_digit base)])) as Hr2.
    split; [rewrite length_app, Hlen; reflexivity|]. split.
    + apply Forall_app. split; [exact (Hdig eq_refl)|].
      constructor; [apply digit_char_is_digit; exact Hr1|].
      constructor; [apply digit_char_is_digit; exact Hr2|].
      constructor.
    + apply base_with_check_digits_valid; [exact Hlen | exact Hall].
Qed.

(** *** Formatting and reading back *)

Lemma cnpj_normalize_app a b :
  Ref.cnpj_normalize (a ++ b) = Ref.cnpj_normalize a ++ Ref.cnpj_normalize b.
Proof. unfold Ref.cnpj_normalize. by rewrite fmap_app, filter_app. Qed.

Lemma cnpj_normalize_of_render n :
  length n = 14%nat -> Forall (fun c => Ref.is_alnum c = true) n ->
  Ref.cnpj_normalize (Ref.cnpj_render n) = n.
Proof.
  intros Hlen Hall. unfold Ref.cnpj_render.
  rewrite !cnpj_normalize_app.
  change (Ref.cnpj_normalize (str ".")) with (@nil ascii).
  change (Ref.cnpj_normalize (str "/")) with (@nil ascii).
  change (Ref.cnpj_normalize (str "-")) with (@nil ascii).
  rewrite !cnpj_normalize_id
    by (repeat (apply Forall_take || apply Forall_drop); exact Hall).
  do 15 (destruct n as [|? n]; try discriminate Hlen). reflexivity.
Qed.

Lemma cnpj_Format_exact value :
  CNPJ.Format value =
    (if decide (length (Ref.cnpj_normalize value) = 14%nat)
     then Ok (Ref.cnpj_render (Ref.cnpj_normalize value))
     else Err (CNPJLength (len (Ref.cnpj_normalize value)))).
Proof.
  unfold CNPJ.Format. rewrite cnpj_digits_ok.
  set (n := Ref.cnpj_normalize value).
  unfold len, CnpjLength.
  destruct (Z.eqb_spec (Z.of_nat (length n)) 14) as [E|E]; cbn [negb].
  - rewrite decide_True by lia.
    assert (length n = 14%nat) as Hlen by lia.
    do 14 (destruct n as [|? n]; [discriminate Hlen|]).
    destruct n; [|discriminate Hlen]. reflexivity.
  - rewrite decide_False by lia. reflexivity.
Qed.

Lemma cnpj_Validate_digits v1 v2 :
  CNPJ.digits v1 = CNPJ.digits v2 -> CNPJ.Validate v1 = CNPJ.Validate v2.
Proof. intros H. unfold CNPJ.Validate. by rewrite H. Qed.

Lemma cnpj_format_reads_back value out :
  CNPJ.Format value = Ok out ->
  length out = 18%nat
  /\ CNPJ.digits out = CNPJ.digits value
  /\ CNPJ.Format out = Ok out
  /\ CNPJ.Validate out = CNPJ.Validate value.
Proof.
  rewrite cnpj_Format_exact. destruct (decide _) as [Hlen|]; [|discriminate].
  intros [= <-].
  assert (CNPJ.digits (Ref.cnpj_render (Ref.cnpj_normalize value))
          = CNPJ.digits value) as Hd.
  { rewrite !cnpj_digits_ok.
    apply cnpj_normalize_of_render; [exact Hlen | apply cnpj_normalize_alnum]. }
  split; [by apply cnpj_render_length|]. split; [exact Hd|].
  split; [|by apply cnpj_Validate_digits].
  rewrite cnpj_Format_exact. rewrite !cnpj_digits_ok in Hd.
  rewrite Hd. by rewrite decide_True.
Qed.

(** X15. A CNPJ that [Format] renders reads back unchanged: the result
    has 18 characters, [digits] finds in it the normalized form of the
    input, formatting it again gives the same text, and [Validate]
    answers on it as on the input. *)
Theorem CNPJ_Format_round_trip (value out : list ascii) :
  CNPJ.Format value = Ok out ->
  length out = 18%nat
  /\ CNPJ.digits out = CNPJ.digits value
  /\ CNPJ.Format out = Ok out
  /\ CNPJ.Validate out = CNPJ.Validate value.
Proof. apply cnpj_format_reads_back. Qed.

Lemma CNPJ_Format_round_trip_witness :
  length (str "12.ABC.345/01DE-35") = 18%nat
  /\ CNPJ.digits (str "12.ABC.345/01DE-35") = CNPJ.digits (str "12abc34501de35")
  /\ CNPJ.Format (str "12.ABC.345/01DE-35") = Ok (str "12.ABC.345/01DE-35")
  /\ CNPJ.Validate (str "12.ABC.345/01DE-35")
     = CNPJ.Validate (str "12abc34501de35").
Proof.
  apply (CNPJ_Format_round_trip (str "12abc34501de35")). reflexivity.
Defined.

Lemma cpf_format_reads_back value out :
  cpf_format_answer value = Ok out ->
  length out = 14%nat
  /\ CPF.digits out = CPF.digits value
  /\ cpf_format_answer out = Ok out
  /\ cpf_answer out = cpf_answer value.
Proof.
  unfold cpf_format_answer.
  destruct (CPF.isAccepted value) eqn:Hacc; [|discriminate]. cbn [negb].
  destruct (bool_decide _) eqn:Hlen; [|discriminate].
  apply bool_decide_eq_true in Hlen. intros [= <-].
  assert (Ref.cpf_digits (Ref.cpf_render (Ref.cpf_digits value))
          = Ref.cpf_digits value) as Hd
    by (apply cpf_digits_of_render;
        [exact Hlen | apply cpf_digits_are_digits]).
  assert (CPF.isAccepted (Ref.cpf_render (Ref.cpf_digits value)) = true)
    as Hacc'.
  { apply isAccepted_ref. rewrite Hd. by apply isAccepted_ref. }
  split; [by apply cpf_render_length|].
  split; [by rewrite !cpf_digits_ok|].
  split.
  - rewrite Hacc'. cbn [negb]. rewrite Hd. by rewrite bool_decide_eq_true_2.
  - unfold cpf_answer, Ref.cpf_values. by rewrite Hacc', Hacc, Hd.
Qed.

(** X16. A CPF that [Format] renders reads back unchanged, on any usable
    receivers: the result has 14 characters, [digits] finds in it the
    digits of the input, [Format] renders it again to the same text, and
    [Validate] answers on it as on the input. *)
Theorem CPF_Format_round_trip (c c2 : CPF.t) (st st2 : state)
    (value out : list ascii) (c' : CPF.t) (st' : state) :
  slice_ok (CPF.cpfNumber c) (heap st) ->
  slice_ok (CPF.cpfNumber c2) (heap st2) ->
  CPF.Format c value st = Some ((Ok out, c'), st') ->
  length out = 14%nat
  /\ CPF.digits out = CPF.digits value
  /\ (fun x => x.1.1) <$> CPF.Format c2 out st2 = Some (Ok out)
  /\ (fun x => x.1.1) <$> CPF.Validate c2 out st2
     = (fun x => x.1.1) <$> CPF.Validate c2 value st2.
Proof.
  intros Hc Hc2 Hrun.
  destruct (Format_exact c value st Hc) as (c1 & st1 & Hf & _ & _).
  rewrite Hf in Hrun. injection Hrun as Hans _ _.
  destruct (cpf_format_reads_back value out Hans) as (Hl & Hd & Hf2 & Hv).
  split; [exact Hl|]. split; [exact Hd|]. split.
  - destruct (Format_exact c2 out st2 Hc2) as (c3 & st3 & -> & _ & _).
    cbn. by rewrite Hf2.
  - destruct (Validate_exact c2 out st2 Hc2) as (c3 & st3 & -> & _ & _).
    destruct (Validate_exact c2 value st2 Hc2) as (c4 & st4 & -> & _ & _).
    cbn. by rewrite Hv.
Qed.

Lemma CPF_Format_round_trip_witness :
  exists out,
    length out = 14%nat
    /\ CPF.digits out = CPF.digits (str "12345678909")
    /\ (fun x => x.1.1) <$> CPF.Format CPF.NewCPF out sample_store
       = Some (Ok out)
    /\ (fun x => x.1.1) <$> CPF.Validate CPF.NewCPF out sample_store
       = (fun x => x.1.1)
           <$> CPF.Validate CPF.NewCPF (str "12345678909") sample_store.
Proof.
  eexists.
  eapply (CPF_Format_round_trip CPF.NewCPF CPF.NewCPF sample_store
            sample_store (str "12345678909")).
  - split; simpl; lia.
  - split; simpl; lia.
  - vm_compute. reflexivity.
Defined.

(** *** The command line *)






Lemma cnpj_write_valid_ok value w :
  CNPJ.Validate value = true ->
  Cli.cnpj_write_valid value w
  = Cli.Fprintf_valid w (Ref.cnpj_render (Ref.cnpj_normalize value)).
Proof.
  intros Hv. apply cnpj_Validate_ok in Hv as (Hlen & _).
  unfold Cli.cnpj_write_valid. rewrite cnpj_Format_exact.
  by rewrite decide_True.
Qed.

Lemma cnpj_bulk_loop_ok TrimSpace texts : forall w anyInvalid,
  Cli.cnpj_bulk_loop TrimSpace texts w anyInvalid
  = (w ++ concat ((fun t => cnpj_line_report (TrimSpace t)) <$> texts),
     anyInvalid || existsb (fun t => cnpj_line_invalid (TrimSpace t)) texts).
Proof.
  induction texts as [|text texts IH]; intros w anyInvalid.
  - cbn. by rewrite app_nil_r, orb_false_r.
  - cbn [Cli.cnpj_bulk_loop fmap list_fmap concat existsb].
    unfold cnpj_line_report at 1, cnpj_line_invalid at 1.
    fold (skipped (TrimSpace text)).
    destruct (skipped (TrimSpace text)) eqn:Hskip.
    { cbn [negb andb orb app]. apply IH. }
    destruct (CNPJ.Validate (TrimSpace text)) eqn:Hv; cbn [negb andb orb].
    + rewrite IH, cnpj_write_valid_ok by exact Hv.
      unfold Cli.Fprintf_valid. by rewrite <- !app_assoc.
    + rewrite IH. unfold Cli.Fprintf_invalid. cbn [orb].
      rewrite orb_true_r. by rewrite <- !app_assoc.
Qed.

(** X18. The validating runs of the [cnpj] command never write a bare
    "valid": a value [Validate] accepts is always written with its
    formatted form, the rendering of its normalized form. A bulk run
    writes one line per line of input that is not skipped, in order, and
    sets [anyInvalid] exactly when one of them is invalid. *)
Theorem cnpj_command_reports (TrimSpace : list ascii -> list ascii)
    (w : list ascii) :
  (forall value,
     Cli.cnpj_single value w
     = (if CNPJ.Validate value
        then Cli.Fprintf_valid w (Ref.cnpj_render (CNPJ.digits value))
        else Cli.Fprintln w (str "invalid"),
        negb (CNPJ.Validate value)))
  /\ (forall texts,
        Cli.cnpj_bulk TrimSpace texts w
        = (w ++ concat ((fun t => cnpj_line_report (TrimSpace t)) <$> texts),
           existsb (fun t => cnpj_line_invalid (TrimSpace t)) texts)).
Proof.
  split.
  - intros value. unfold Cli.cnpj_single. rewrite cnpj_digits_ok.
    destruct (CNPJ.Validate value) eqn:Hv; [|reflexivity].
    by rewrite cnpj_write_valid_ok.
  - intros texts. unfold Cli.cnpj_bulk. by rewrite cnpj_bulk_loop_ok.
Qed.






(** X21. The flag tests let a run through exactly when one of
    [--generate], [--validate] and [--from] is given, and the branch taken
    is that flag's: the single validation at the end of [RunE], which has
    no test of its own, is reached only with a value to validate. *)
Theorem check_flags_selects (generate : bool) (validate from : list ascii) :
  (Cli.check_flags generate validate from = inr Cli.ModeGenerate
   <-> generate = true /\ validate = [] /\ from = [])
  /\ (Cli.check_flags generate validate from = inr Cli.ModeFrom
      <-> generate = false /\ validate = [] /\ from <> [])
  /\ (Cli.check_flags generate validate from = inr Cli.ModeValidate
      <-> generate = false /\ validate <> [] /\ from = []).
Proof.
  unfold Cli.check_flags.
  destruct generate; destruct (decide (validate = [])) as [Hv|Hv];
    destruct (decide (from = [])) as [Hf|Hf];
    rewrite ?(bool_decide_eq_true_2 _ Hv), ?(bool_decide_eq_false_2 _ Hv),
      ?(bool_decide_eq_true_2 _ Hf), ?(bool_decide_eq_false_2 _ Hf);
    cbn [negb andb orb]; split_and!; split;
    try discriminate; try (intros (? & ? & ?); congruence); done.
Qed.

(** *** Documents that [ValidateDocument] reports valid *)

Lemma filter_full {A} (P : A -> Prop) `{!forall x, Decision (P x)}
    (l : list A) :
  length (filter P l) = length l -> filter P l = l.
Proof.
  induction l as [|x l IH]; [done|]. intros Hlen.
  rewrite filter_cons in *. destruct (decide (P x)) as [Hx|Hx].
  - cbn in Hlen. f_equal. apply IH. lia.
  - pose proof (length_filter P l) as Hle. cbn in Hlen. lia.
Qed.

Lemma cpf_digits_strip doc :
  Ref.cpf_digits (Ref.strip_separators doc) = Ref.cpf_digits doc.
Proof.
  unfold Ref.cpf_digits, Ref.strip_separators.
  induction doc as [|c doc IH]; [done|].
  rewrite !filter_cons.
  destruct (decide (c <> "."%char /\ c <> "-"%char /\ c <> "/"%char))
    as [Hc|Hc].
  - rewrite filter_cons, IH. reflexivity.
  - rewrite IH. rewrite decide_False; [done|].
    intros Hd. apply Hc. split_and!; intros ->; discriminate Hd.
Qed.

Lemma cnpj_normalize_strip doc :
  Ref.cnpj_normalize (Ref.strip_separators doc) = Ref.cnpj_normalize doc.
Proof.
  unfold Ref.cnpj_normalize, Ref.strip_separators.
  induction doc as [|c doc IH]; [done|].
  rewrite filter_cons. cbn [fmap list_fmap]. rewrite (filter_cons _ (Ref.to_upper c)).
  destruct (decide (c <> "."%char /\ c <> "-"%char /\ c <> "/"%char))
    as [Hc|Hc].
  - cbn [fmap list_fmap]. rewrite filter_cons. fold (@fmap list _ _ _ Ref.to_upper). by rewrite IH.
  - rewrite IH. rewrite decide_False; [done|].
    intros Hd. apply Hc. split_and!; intros ->; discriminate Hd.
Qed.

Lemma ValidateDocument_valid_shape ToUpper doc st kind st' :
  (forall s, length (ToUpper s) = length s) ->
  ValidateDocument ToUpper doc st = Some ((kind, true), st') ->
  (kind = str "CPF"
   /\ length (CPF.digits doc) = 11%nat
   /\ Ref.strip_separators doc = CPF.digits doc)
  \/ (kind = str "CNPJ"
      /\ length (CNPJ.digits doc) = 14%nat
      /\ Ref.to_upper <$> Ref.strip_separators doc = CNPJ.digits doc).
Proof.
  intros Hup. unfold ValidateDocument. rewrite strip_separators_ok.
  unfold len, CpfLength, CnpjLength. rewrite Hup.
  destruct (Z.eqb_spec (Z.of_nat (length (Ref.strip_separators doc))) 11)
    as [E11|E11].
  - assert (slice_ok (CPF.cpfNumber CPF.NewCPF) (heap st)) as Hc
      by (split; simpl; lia).
    destruct (Validate_exact CPF.NewCPF doc st Hc) as (c1 & st1 & Hv & _ & _).
    rewrite (bind_run _ _ _ _ _ Hv). cbn [fst]. intros [= <- Hans _]. left.
    apply cpf_answer_true in Hans as (_ & Hlen & _).
    unfold Ref.cpf_values in Hlen. rewrite length_fmap in Hlen.
    rewrite cpf_digits_ok. split; [done|]. split; [exact Hlen|].
    rewrite <- cpf_digits_strip. symmetry. apply filter_full.
    fold (Ref.cpf_digits (Ref.strip_separators doc)).
    rewrite cpf_digits_strip. lia.
  - destruct (Z.eqb_spec (Z.of_nat (length (Ref.strip_separators doc))) 14)
      as [E14|E14]; [|intros [= _ Hf]; discriminate Hf].
    intros [= <- Hv _]. right.
    apply cnpj_Validate_ok in Hv as (Hlen & _).
    rewrite cnpj_digits_ok. split; [done|]. split; [exact Hlen|].
    rewrite <- cnpj_normalize_strip. symmetry. apply filter_full.
    fold (Ref.cnpj_normalize (Ref.strip_separators doc)).
    rewrite cnpj_normalize_strip, length_fmap. lia.
Qed.

(** X22. With an uppercasing that keeps the number of bytes, as that of
    ASCII text does, [ValidateDocument] reports a document valid only if
    nothing is left of it, separators removed, but the 11 digits of a CPF
    or, lowercase letters apart, the 14 characters of a CNPJ: a document
    with a space or any other byte besides is never reported valid. *)
Theorem ValidateDocument_valid_only_clean
    (ToUpper : list ascii -> list ascii) (doc : list ascii) (st : state)
    (kind : list ascii) (st' : state) :
  (forall s, length (ToUpper s) = length s) ->
  ValidateDocument ToUpper doc st = Some ((kind, true), st') ->
  (kind = str "CPF"
   /\ length (CPF.digits doc) = 11%nat
   /\ Ref.strip_separators doc = CPF.digits doc)
  \/ (kind = str "CNPJ"
      /\ length (CNPJ.digits doc) = 14%nat
      /\ Ref.to_upper <$> Ref.strip_separators doc = CNPJ.digits doc).
Proof. apply ValidateDocument_valid_shape. Qed.

Lemma asciiToUpper_length s : length (asciiToUpper s) = length s.
Proof. unfold asciiToUpper. apply length_fmap. Qed.

Lemma ValidateDocument_valid_only_clean_witness :
  length (CNPJ.digits (str "12.abc.345/01de-35")) = 14%nat
  /\ Ref.to_upper <$> Ref.strip_separators (str "12.abc.345/01de-35")
     = CNPJ.digits (str "12.abc.345/01de-35").
Proof.
  destruct (ValidateDocument_valid_only_clean asciiToUpper
              (str "12.abc.345/01de-35") sample_store (str "CNPJ")
              sample_store asciiToUpper_length
              ltac:(vm_compute; reflexivity)) as [[H _]|[_ H]].
  - discriminate H.
  - exact H.
Defined.
